(** * Event ticketing d-app: the "My Tickets" resolution pipeline

    A shallow embedding of

    - [frontend/src/utils/fallbackImageUtils.js] ([getTicketFallbackImage]
      and its image tables), and
    - [frontend/src/components/MyTickets.jsx] ([fetchUserTickets], the
      three status buckets, the [<img>] source expression and its
      [onError] handler),

    followed by the properties established about them. *)

From Stdlib Require Import ZArith List String Ascii Bool Lia.
From Stdlib Require Import Permutation Sorted DecimalString.
Import ListNotations.

Open Scope string_scope.
Open Scope Z_scope.

(* ================================================================== *)
(** ** JavaScript values and exceptions *)
(* ================================================================== *)

Module Js.

(** The primitive values that reach the code under study.  Numbers are
    restricted to integers: token ids come out of [BigNumber.toNumber()]
    and dates are millisecond timestamps. *)
Inductive Val : Type :=
| Undefined
| Null
| Bool (b : bool)
| Num (n : Z)
| Str (s : string).

(** An exception value: the message of the error that was thrown or of
    the promise rejection. *)
Inductive Exn : Type :=
| Error (msg : string).

(** Result of evaluating an expression that may throw. *)
Inductive Res (A : Type) : Type :=
| Ok (a : A)
| Throw (e : Exn).

Arguments Ok {A} a.
Arguments Throw {A} e.

(** [ToBoolean]. *)
Definition truthy (v : Val) : bool :=
  match v with
  | Undefined | Null => false
  | Bool b => b
  | Num n => negb (n =? 0)
  | Str s => negb (s =? "")%string
  end.

(** [a || b] on values. *)
Definition orElse (a b : Val) : Val := if truthy a then a else b.

(** Strict equality [===] on primitives. *)
Definition strictEq (a b : Val) : bool :=
  match a, b with
  | Undefined, Undefined | Null, Null => true
  | Bool x, Bool y => Bool.eqb x y
  | Num x, Num y => x =? y
  | Str x, Str y => (x =? y)%string
  | _, _ => false
  end.

(** [String.prototype.toLowerCase] on one code unit.  Strings are
    sequences of 8-bit units; the units outside [A-Z] are left alone
    (no character outside ASCII lowercases to an ASCII letter other
    than [i] and [k]). *)
Definition lowerChar (c : ascii) : ascii :=
  let n := nat_of_ascii c in
  if andb (Nat.leb 65 n) (Nat.leb n 90) then ascii_of_nat (n + 32) else c.

Fixpoint toLowerCase (s : string) : string :=
  match s with
  | EmptyString => EmptyString
  | String c r => String (lowerChar c) (toLowerCase r)
  end.

(** [s.startsWith(p)]. *)
Fixpoint startsWith (p s : string) : bool :=
  match p, s with
  | EmptyString, _ => true
  | String _ _, EmptyString => false
  | String a p', String b s' => andb (Ascii.eqb a b) (startsWith p' s')
  end.

(** [s.includes(p)]. *)
Fixpoint includes (s p : string) : bool :=
  if startsWith p s then true
  else match s with
       | EmptyString => false
       | String _ r => includes r p
       end.

(** The [%] operator on integers: the sign follows the dividend. *)
Definition remainder (a b : Z) : Z := Z.rem a b.

(** [arr[i]] on an array of strings: [undefined] outside the array. *)
Definition elementAt (arr : list string) (i : Z) : Val :=
  if i <? 0 then Undefined
  else match nth_error arr (Z.to_nat i) with
       | Some s => Str s
       | None => Undefined
       end.

(** [arr.length]. *)
Definition lengthOf (arr : list string) : Z := Z.of_nat (List.length arr).

(** Template-literal rendering of an integer number. *)
Definition numToString (n : Z) : string := NilZero.string_of_int (Z.to_int n).

End Js.

Import Js.

(* ================================================================== *)
(** ** fallbackImageUtils.js *)
(* ================================================================== *)

Definition DEFAULT_TICKET_IMAGES : list string :=
  [ "https://img.freepik.com/free-vector/realistic-concert-entrance-tickets-set_1017-30605.jpg";
    "https://img.freepik.com/free-vector/realistic-golden-ticket-template_52683-35936.jpg";
    "https://img.freepik.com/free-vector/cinema-tickets-set_1017-30634.jpg";
    "https://img.freepik.com/free-vector/realistic-concert-entrance-tickets-set_1017-30605.jpg";
    "https://img.freepik.com/free-vector/realistic-concert-entrance-tickets-set_1017-30605.jpg" ].

Definition CULTURAL_TICKET_IMAGES : list string :=
  [ "https://img.freepik.com/free-photo/traditional-cultural-dance-performance-stage_53876-138776.jpg";
    "https://img.freepik.com/free-photo/group-people-traditional-indian-clothes_23-2149064512.jpg";
    "https://img.freepik.com/free-photo/woman-dancing-traditional-chinese-clothing_23-2149064502.jpg";
    "https://img.freepik.com/free-photo/african-american-jazz-musician-playing-trumpet_23-2149071755.jpg";
    "https://img.freepik.com/free-photo/traditional-mexican-hat-with-decorations_23-2149067702.jpg" ].

(** The event object handed to the selector; a field that the object
    does not carry reads as [Undefined]. *)
Record Event : Type := mkEvent {
  ev_eventId : Val;
  ev_name : Val;
  ev_description : Val
}.

(** [v.toLowerCase().includes('cultural')]: a [TypeError] unless [v] is
    a string. *)
Definition lowerIncludesCultural (v : Val) : Res bool :=
  match v with
  | Str s => Ok (includes (toLowerCase s) "cultural")
  | _ => Throw (Error "TypeError: toLowerCase is not a function")
  end.

(** [v && v.toLowerCase().includes('cultural')], as a condition. *)
Definition guardedCultural (v : Val) : Res bool :=
  if truthy v then lowerIncludesCultural v else Ok false.

(** The condition of the second [if]:
    [event.name && ... || (event.description && ...)]. *)
Definition isCulturalEvent (event : Event) : Res bool :=
  match guardedCultural (ev_name event) with
  | Throw e => Throw e
  | Ok true => Ok true
  | Ok false => guardedCultural (ev_description event)
  end.

(** [(typeof ticketId === 'number' ? ticketId : 0)]. *)
Definition numericId (ticketId : Val) : Z :=
  match ticketId with Num n => n | _ => 0 end.

(** [getTicketFallbackImage(event, ticketId)]; [None] is a [null] or
    [undefined] event. *)
Definition getTicketFallbackImage (event : option Event) (ticketId : Val)
  : Res Val :=
  match event with
  | None => Ok (elementAt DEFAULT_TICKET_IMAGES 0)
  | Some ev =>
      if orb (strictEq ticketId (Num 0)) (strictEq ticketId (Str "0"))
      then Ok (elementAt CULTURAL_TICKET_IMAGES 0)
      else
        match isCulturalEvent ev with
        | Throw e => Throw e
        | Ok true =>
            let culturalIndex :=
              remainder (numericId ticketId) (lengthOf CULTURAL_TICKET_IMAGES) in
            Ok (elementAt CULTURAL_TICKET_IMAGES culturalIndex)
        | Ok false =>
            let ticketIndex :=
              remainder (numericId ticketId) (lengthOf DEFAULT_TICKET_IMAGES) in
            Ok (elementAt DEFAULT_TICKET_IMAGES ticketIndex)
        end
  end.

(* ================================================================== *)
(** ** MyTickets.jsx: data *)
(* ================================================================== *)

(** A decoded [Transfer] event; [tr_tokenId] is
    [event.args.tokenId.toNumber()]. *)
Record TransferEvent : Type := mkTransfer {
  tr_from : string;
  tr_to : string;
  tr_tokenId : Z
}.

(** What [getTicket] resolves to. *)
Record Ticket : Type := mkTicket {
  tk_eventId : Z;
  tk_used : bool;
  tk_locked : bool
}.

(** What [getEvent] resolves to; [evt_date] is a millisecond timestamp. *)
Record EventInfo : Type := mkEventInfo {
  evt_name : string;
  evt_date : Z
}.

(** The parsed metadata object; a key the body does not carry reads as
    [Undefined]. *)
Record Metadata : Type := mkMetadata {
  md_name : Val;
  md_description : Val;
  md_image : Val
}.

(** The object pushed on [userTickets]. *)
Record TicketRecord : Type := mkRecord {
  tokenId : Z;
  eventId : Z;
  eventName : string;
  eventDate : Z;
  used : bool;
  locked : bool;
  metadata : Metadata
}.

(** The body of an HTTP response. *)
Definition Response : Type := string.

(** The imported helpers and the outside world, as seen by one
    resolution pass.  The source of [contractUtils] and [ipfsUtils] is
    not part of the development, so their functions are taken as they
    come.  Every call that goes to the ledger or the network for one
    token carries that token as its first argument: tokens are processed
    once each, so this names the call, and a failure of one call says
    nothing about the others (transient failures included). *)
Record World : Type := mkWorld {
  getContract : Res unit;
  queryFilter : string -> Res (list TransferEvent);
  ownerOf : Z -> Res string;
  getTicket : Z -> Res Ticket;
  getEvent : Z -> Z -> Res EventInfo;
  getTokenURI : Z -> Res Val;
  ipfsToHttp : Val -> Res Val;
  fetch : Z -> Val -> Res Response;
  json : Response -> Res Metadata
}.

(** One line written to the console. *)
Inductive LogEntry : Type :=
| ConsoleError (msg : string) (err : Exn).

(** The state one run of [fetchUserTickets] reads and writes: the three
    [useState] cells of the component, the local array [userTickets],
    and the console. *)
Record St : Type := mkSt {
  tickets : list TicketRecord;
  loading : bool;
  error : option string;
  userTickets : list TicketRecord;
  console : list LogEntry
}.

(** The state at mount: [useState([])], [useState(true)],
    [useState(null)]. *)
Definition initialSt : St := mkSt [] true None [] [].

(* ================================================================== *)
(** ** A state-and-exception monad for the asynchronous code *)
(* ================================================================== *)

Definition M (A : Type) : Type := St -> Res A * St.

Definition ret {A} (a : A) : M A := fun s => (Ok a, s).

Definition bind {A B} (m : M A) (k : A -> M B) : M B :=
  fun s => match m s with
           | (Ok a, s') => k a s'
           | (Throw e, s') => (Throw e, s')
           end.

(** [await] of a call whose outcome the world fixes.  The call has
    settled: it is fulfilled ([Ok]) or rejected ([Throw]).  A call that
    never settles has no counterpart here; the code sets no timeout, so
    on such a call the pass would not get past this point. *)
Definition await {A} (r : Res A) : M A := fun s => (r, s).

(** [try { m } catch (err) { h err }]. *)
Definition tryCatch {A} (m : M A) (h : Exn -> M A) : M A :=
  fun s => match m s with
           | (Ok a, s') => (Ok a, s')
           | (Throw e, s') => h e s'
           end.

Notation "x <- m ;; k" := (bind m (fun x => k))
  (at level 61, m at next level, right associativity).
Notation "m ;; k" := (bind m (fun _ => k))
  (at level 61, right associativity).

(** [for (const x of l) body]. *)
Fixpoint forOf (l : list Z) (body : Z -> M unit) : M unit :=
  match l with
  | [] => ret tt
  | x :: r => body x ;; forOf r body
  end.

Definition setTickets (v : list TicketRecord) : M unit :=
  fun s => (Ok tt, mkSt v (loading s) (error s) (userTickets s) (console s)).
Definition setLoading (v : bool) : M unit :=
  fun s => (Ok tt, mkSt (tickets s) v (error s) (userTickets s) (console s)).
Definition setError (v : string) : M unit :=
  fun s => (Ok tt, mkSt (tickets s) (loading s) (Some v) (userTickets s) (console s)).
Definition setUserTickets (v : list TicketRecord) : M unit :=
  fun s => (Ok tt, mkSt (tickets s) (loading s) (error s) v (console s)).
Definition getUserTickets : M (list TicketRecord) :=
  fun s => (Ok (userTickets s), s).
Definition consoleError (msg : string) (err : Exn) : M unit :=
  fun s => (Ok tt, mkSt (tickets s) (loading s) (error s) (userTickets s)
                        (console s ++ [ConsoleError msg err])).

(** [userTickets.push(r)]. *)
Definition push (r : TicketRecord) : M unit :=
  l <- getUserTickets ;; setUserTickets (l ++ [r]).

(* ================================================================== *)
(** ** MyTickets.jsx: [fetchUserTickets] *)
(* ================================================================== *)

(** [[...new Set(l)]]: the values of [l] in order of first occurrence. *)
Definition setAdd (acc : list Z) (x : Z) : list Z :=
  if existsb (Z.eqb x) acc then acc else acc ++ [x].

Definition spreadSet (l : list Z) : list Z := fold_left setAdd l [].

(** [Array.prototype.sort(cmp)]: a stable sort; [x] goes in front of
    the first element it does not compare greater than. *)
Section Sort.
Context {A : Type} (cmp : A -> A -> Z).

Fixpoint insert (x : A) (l : list A) : list A :=
  match l with
  | [] => [x]
  | y :: r => if cmp x y <=? 0 then x :: y :: r else y :: insert x r
  end.

Fixpoint sort (l : list A) : list A :=
  match l with
  | [] => []
  | x :: r => insert x (sort r)
  end.

End Sort.

(** [(a, b) => a.eventDate - b.eventDate]. *)
Definition byEventDate (a b : TicketRecord) : Z := eventDate a - eventDate b.

Definition sortUserTickets : M unit :=
  l <- getUserTickets ;; setUserTickets (sort byEventDate l).

(** The placeholder assigned in the inner [catch]. *)
Definition placeholderMetadata (tokenId : Z) : Metadata :=
  mkMetadata (Str ("Ticket #" ++ numToString tokenId))
             (Str "Metadata unavailable")
             (Str "").

(** The inner [try]/[catch] around the metadata fetch. *)
Definition fetchMetadata (w : World) (tokenId : Z) (tokenURI : Val) : M Metadata :=
  tryCatch
    (httpUrl <- await (ipfsToHttp w tokenURI) ;;
     response <- await (fetch w tokenId httpUrl) ;;
     await (json w response))
    (fun err =>
       consoleError ("Error fetching metadata for token "
                       ++ numToString tokenId ++ ":") err ;;
       ret (placeholderMetadata tokenId)).

(** The body of the [for] loop, with its [try]/[catch]. *)
Definition processToken (w : World) (account : string) (tokenId : Z) : M unit :=
  tryCatch
    (currentOwner <- await (ownerOf w tokenId) ;;
     if negb (toLowerCase currentOwner =? toLowerCase account)%string
     then ret tt
     else
       ticket <- await (getTicket w tokenId) ;;
       event <- await (getEvent w tokenId (tk_eventId ticket)) ;;
       tokenURI <- await (getTokenURI w tokenId) ;;
       metadata <- fetchMetadata w tokenId tokenURI ;;
       push (mkRecord tokenId (tk_eventId ticket) (evt_name event)
                      (evt_date event) (tk_used ticket) (tk_locked ticket)
                      metadata))
    (fun err =>
       consoleError ("Error processing token " ++ numToString tokenId ++ ":") err).

Definition fetchUserTickets (w : World) (account : string) : M unit :=
  tryCatch
    (setLoading true ;;
     _ <- await (getContract w) ;;
     events <- await (queryFilter w account) ;;
     let tokenIds := spreadSet (map tr_tokenId events) in
     setUserTickets [] ;;
     forOf tokenIds (processToken w account) ;;
     sortUserTickets ;;
     sorted <- getUserTickets ;;
     setTickets sorted ;;
     setLoading false)
    (fun err =>
       consoleError "Error fetching user tickets:" err ;;
       setError "Failed to load your tickets. Please try again later." ;;
       setLoading false).

(* ================================================================== *)
(** ** MyTickets.jsx: rendering *)
(* ================================================================== *)

(** A time value a [Date] can hold: at most 8.64e15 ms from the epoch.
    Beyond it [new Date(date)] is an invalid date. *)
Definition validTime (date : Z) : bool := Z.abs date <=? 8640000000000000.

(** [new Date(date) > new Date()], the clock reading [now]; an invalid
    date compares [false]. *)
Definition isUpcoming (now date : Z) : bool := validTime date && (date >? now).

Definition upcomingTickets (now : Z) (ts : list TicketRecord) : list TicketRecord :=
  filter (fun ticket => isUpcoming now (eventDate ticket) && negb (used ticket)) ts.
Definition usedTickets (ts : list TicketRecord) : list TicketRecord :=
  filter (fun ticket => used ticket) ts.
Definition expiredTickets (now : Z) (ts : list TicketRecord) : list TicketRecord :=
  filter (fun ticket => negb (isUpcoming now (eventDate ticket)) && negb (used ticket)) ts.

(** The event object built in the [src] expression. *)
Definition ticketEvent (ticket : TicketRecord) : Event :=
  mkEvent (Num (eventId ticket))
          (Str (eventName ticket))
          (orElse (md_description (metadata ticket)) (Str "")).

(** The [src] attribute of the ticket image. *)
Definition imgSrc (w : World) (ticket : TicketRecord) : Res Val :=
  if truthy (md_image (metadata ticket))
  then ipfsToHttp w (md_image (metadata ticket))
  else getTicketFallbackImage (Some (ticketEvent ticket)) (Num (tokenId ticket)).

(** The [src] the [onError] handler installs. *)
Definition onErrorSrc (ticket : TicketRecord) : Val :=
  if strictEq (Num (tokenId ticket)) (Num 0)
  then Str "https://img.freepik.com/free-photo/traditional-cultural-dance-performance-stage_53876-138776.jpg"
  else Str "https://img.freepik.com/free-vector/realistic-concert-entrance-tickets-set_1017-30605.jpg".

(* ================================================================== *)
(** ** Vocabulary of the properties *)
(* ================================================================== *)

(** [s] has a substring that is [w] up to the case of its letters. *)
Definition containsIgnoreCase (s w : string) : Prop :=
  exists pre mid suf,
    s = pre ++ mid ++ suf /\ toLowerCase mid = toLowerCase w.

(** Two addresses that differ at most in the case of their letters. *)
Definition sameAddress (a b : string) : Prop := toLowerCase a = toLowerCase b.

(** A metadata field of the documented shape: a string, or absent. *)
Definition textual (v : Val) : Prop :=
  match v with
  | Str _ | Undefined | Null => True
  | Bool _ | Num _ => False
  end.

(** Metadata of the documented shape [{name, description, image}]. *)
Definition wfMetadata (m : Metadata) : Prop :=
  textual (md_name m) /\ textual (md_description m) /\ textual (md_image m).

(** The text of a field: empty when the field is absent. *)
Definition textOf (v : Val) : string :=
  match v with
  | Str s => s
  | _ => ""
  end.

(** The description the [src] expression hands to the selector. *)
Definition descriptionText (ticket : TicketRecord) : string :=
  textOf (md_description (metadata ticket)).

(** The ticket's event matches the "cultural" rule. *)
Definition culturalTicket (ticket : TicketRecord) : Prop :=
  containsIgnoreCase (eventName ticket) "cultural"
  \/ containsIgnoreCase (descriptionText ticket) "cultural".

(** Non-decreasing event dates. *)
Definition dateLe (a b : TicketRecord) : Prop := eventDate a <= eventDate b.

(** The records of [l] dated [d], in the order [l] has them. *)
Definition datedAt (d : Z) (l : list TicketRecord) : list TicketRecord :=
  filter (fun r => eventDate r =? d) l.

(** The metadata fetch of token [k] fails: at the URI translation, at
    the request, or at the parsing of the body. *)
Definition metadataFetchFails (w : World) (k : Z) (uri : Val) : Prop :=
  (exists e, ipfsToHttp w uri = Throw e)
  \/ (exists url e, ipfsToHttp w uri = Ok url /\ fetch w k url = Throw e)
  \/ (exists url resp e,
        ipfsToHttp w uri = Ok url /\ fetch w k url = Ok resp
        /\ json w resp = Throw e).

(** The ownership check, the ticket-state fetch or the event-descriptor
    fetch of token [k] fails. *)
Definition lookupFails (w : World) (account : string) (k : Z) : Prop :=
  (exists e, ownerOf w k = Throw e)
  \/ (exists o e, ownerOf w k = Ok o /\ sameAddress o account
                  /\ getTicket w k = Throw e)
  \/ (exists o t e, ownerOf w k = Ok o /\ sameAddress o account
                    /\ getTicket w k = Ok t
                    /\ getEvent w k (tk_eventId t) = Throw e).

(** Two worlds that answer alike on everything but the calls made for
    token [k]. *)
Definition agreeExcept (k : Z) (w w' : World) : Prop :=
  getContract w' = getContract w
  /\ (forall a, queryFilter w' a = queryFilter w a)
  /\ (forall u, ipfsToHttp w' u = ipfsToHttp w u)
  /\ (forall r, json w' r = json w r)
  /\ (forall j, j <> k ->
        ownerOf w' j = ownerOf w j
        /\ getTicket w' j = getTicket w j
        /\ (forall e, getEvent w' j e = getEvent w j e)
        /\ getTokenURI w' j = getTokenURI w j
        /\ (forall u, fetch w' j u = fetch w j u)).

(** What processing token [k] adds to [userTickets] and to the console:
    the loop body run from the state at mount. *)
Definition contribution (w : World) (account : string) (k : Z) : list TicketRecord :=
  userTickets (snd (processToken w account k initialSt)).

Definition diagnostics (w : World) (account : string) (k : Z) : list LogEntry :=
  console (snd (processToken w account k initialSt)).

(** The ownership test of the loop, on the answer of the world; a
    failed lookup owns nothing. *)
Definition ownedBy (w : World) (account : string) (k : Z) : bool :=
  match ownerOf w k with
  | Ok o => (toLowerCase o =? toLowerCase account)%string
  | Throw _ => false
  end.

(** The records of [l] other than the one of token [k]. *)
Definition withoutToken (k : Z) (l : list TicketRecord) : list TicketRecord :=
  filter (fun r => negb (tokenId r =? k)) l.

(* ================================================================== *)
(** ** A worked example *)
(* ================================================================== *)

(** The wallet of the example holds tokens 3 and 7.  The log shows
    transfers to it of tokens 3, 7, 9 and 3 again; token 9 has moved on.
    The metadata of token 7 cannot be fetched. *)
Module Demo.

Definition account : string := "0xAbCdEf01".

Definition world : World :=
  mkWorld
    (Ok tt)
    (fun _ => Ok [ mkTransfer "0x00" "0xabcdef01" 3;
                   mkTransfer "0x11" "0xabcdef01" 7;
                   mkTransfer "0x22" "0xabcdef01" 9;
                   mkTransfer "0x33" "0xabcdef01" 3 ])
    (fun k => if k =? 9 then Ok "0x99999999" else Ok "0xABCDEF01")
    (fun k => Ok (mkTicket (10 - k) (k =? 7) false))
    (fun _ e => Ok (mkEventInfo (if e =? 3 then "Cultural Night" else "Rock Concert")
                                (1000 * e)))
    (fun k => Ok (Str ("ipfs://token-" ++ numToString k)))
    (fun u => match u with
              | Str s => Ok (Str ("https://ipfs.io/ipfs/" ++ s))
              | _ => Throw (Error "TypeError: not a string")
              end)
    (fun k _ => if k =? 7 then Throw (Error "TypeError: Failed to fetch")
                else Ok "{...}")
    (fun _ => Ok (mkMetadata (Str "Front row") (Str "Seat 12") Undefined)).

(** A ticket for a concert with the placeholder metadata. *)
Definition concertTicket : TicketRecord :=
  mkRecord 1 4 "Rock Concert" 5000 false false (placeholderMetadata 1).

(** Four resolved tickets in processing order: two share a date, one
    is used although its event is still to come (at time 4000). *)
Definition resolved : list TicketRecord :=
  [ mkRecord 3 7 "Rock Concert" 7000 false false (placeholderMetadata 3);
    mkRecord 7 3 "Cultural Night" 3000 false false (placeholderMetadata 7);
    mkRecord 8 7 "Rock Concert" 7000 true false (placeholderMetadata 8);
    mkRecord 2 7 "Rock Concert" 7000 false true (placeholderMetadata 2) ].

(** The world of the example with the ownership check of token 3
    failing. *)
Definition worldWithout3 : World :=
  mkWorld (getContract world) (queryFilter world)
          (fun k => if k =? 3 then Throw (Error "call revert exception")
                    else ownerOf world k)
          (getTicket world) (getEvent world) (getTokenURI world)
          (ipfsToHttp world) (fetch world) (json world).

End Demo.


(* ================================================================== *)
(** ** fallbackImageUtils.js: the event selector *)
(* ================================================================== *)

Definition DEFAULT_EVENT_IMAGES : list string :=
  [ "https://cdn.pixabay.com/photo/2016/11/23/15/48/audience-1853662_1280.jpg";
    "https://cdn.pixabay.com/photo/2016/11/22/19/15/hand-1850120_1280.jpg";
    "https://cdn.pixabay.com/photo/2017/07/21/23/57/concert-2527495_1280.jpg";
    "https://cdn.pixabay.com/photo/2016/11/29/06/17/audience-1867754_1280.jpg";
    "https://cdn.pixabay.com/photo/2017/01/06/23/03/sunrise-1959227_1280.jpg" ].

Section EventSelector.

(** The conversion of a string to a number is left open: [None] stands
    for a result that is not an integer ([NaN], a fraction, an
    infinity), every one of which indexes outside the table. *)
Variable stringToNumber : string -> option Z.

(** [ToNumber], as [%] applies it to its left operand. *)
Definition toNumber (v : Val) : option Z :=
  match v with
  | Undefined => None
  | Null => Some 0
  | Bool b => Some (if b then 1 else 0)
  | Num n => Some n
  | Str s => stringToNumber s
  end.

(** [getEventFallbackImage(event)]; [None] is a [null] or [undefined]
    event. *)
Definition getEventFallbackImage (event : option Event) : Val :=
  match event with
  | None => elementAt DEFAULT_EVENT_IMAGES 0
  | Some ev =>
      match toNumber (ev_eventId ev) with
      | Some n =>
          let index := remainder n (lengthOf DEFAULT_EVENT_IMAGES) in
          elementAt DEFAULT_EVENT_IMAGES index
      | None => Undefined
      end
  end.

End EventSelector.

(* ================================================================== *)
(** ** MyTickets.jsx: the effect and the rendered page *)
(* ================================================================== *)

(** The component state together with the route last handed to
    [navigate], if any. *)
Record Page : Type := mkPage {
  page_state : St;
  page_route : option string
}.

(** The body of [useEffect] for the props [isConnected] and [account]
    ([None] is a [null] or [undefined] account). *)
Definition useEffectBody (w : World) (isConnected : Val) (account : option string)
           (p : Page) : Page :=
  if strictEq isConnected (Bool false)
  then mkPage (page_state p) (Some "/")
  else
    match account with
    | Some a =>
        if truthy isConnected && truthy (Str a)
        then mkPage (snd (fetchUserTickets w a (page_state p))) (page_route p)
        else p
    | None => p
    end.

(** What [renderTicketCard] puts on a card.  [card_date] is the date
    handed to [formatDate], whose text depends on the locale. *)
Record Card : Type := mkCard {
  card_key : Z;
  card_className : string;
  card_src : Res Val;
  card_alt : Val;
  card_usedOverlay : bool;
  card_expiredOverlay : bool;
  card_lockedBadge : bool;
  card_culturalBadge : bool;
  card_title : string;
  card_date : Z;
  card_idLabel : string;
  card_active : bool;
  card_link : string
}.

Definition renderTicketCard (w : World) (now : Z) (ticket : TicketRecord) : Card :=
  mkCard
    (tokenId ticket)
    ("ticket-card " ++ (if used ticket then "used" else "") ++ " "
       ++ (if negb (isUpcoming now (eventDate ticket)) then "past" else ""))
    (imgSrc w ticket)
    (orElse (md_name (metadata ticket))
            (Str ("Ticket #" ++ numToString (tokenId ticket))))
    (used ticket)
    (negb (isUpcoming now (eventDate ticket)) && negb (used ticket))
    (locked ticket)
    (strictEq (Num (tokenId ticket)) (Num 0))
    (eventName ticket)
    (eventDate ticket)
    ("Ticket #" ++ numToString (tokenId ticket))
    (isUpcoming now (eventDate ticket) && negb (used ticket))
    ("/tickets/" ++ numToString (tokenId ticket)).

(** What the component returns. *)
Inductive View : Type :=
| RenderNull
| RenderLoading
| RenderError (msg : string)
| RenderNoTickets
| RenderSections (sections : list (string * list Card)).

(** [{cards.length > 0 && <div className="tickets-section">...}]. *)
Definition section (title : string) (cards : list Card) : list (string * list Card) :=
  if 0 <? Z.of_nat (List.length cards) then [(title, cards)] else [].

(** The clock as one render sees it: every call of [isUpcoming] makes
    its own [new Date()], and [clock i] is the reading of call number
    [i] of the render, counted from 0. *)
Definition Clock : Type := nat -> Z.

(** [tickets.filter(ticket => test)] for a [test] that calls
    [isUpcoming] once on every ticket; the first ticket reads the clock
    at [i]. *)
Fixpoint filterAt (clock : Clock) (i : nat) (test : Z -> TicketRecord -> bool)
         (ts : list TicketRecord) : list TicketRecord :=
  match ts with
  | [] => []
  | ticket :: r =>
      if test (clock i) ticket
      then ticket :: filterAt clock (S i) test r
      else filterAt clock (S i) test r
  end.

(** [renderTicketCard(ticket)] with its three [isUpcoming] calls, for
    the class name, the EXPIRED overlay and the Active label, reading
    [n1], [n2] and [n3]. *)
Definition renderTicketCardAt (w : World) (n1 n2 n3 : Z) (ticket : TicketRecord)
  : Card :=
  mkCard
    (tokenId ticket)
    ("ticket-card " ++ (if used ticket then "used" else "") ++ " "
       ++ (if negb (isUpcoming n1 (eventDate ticket)) then "past" else ""))
    (imgSrc w ticket)
    (orElse (md_name (metadata ticket))
            (Str ("Ticket #" ++ numToString (tokenId ticket))))
    (used ticket)
    (negb (isUpcoming n2 (eventDate ticket)) && negb (used ticket))
    (locked ticket)
    (strictEq (Num (tokenId ticket)) (Num 0))
    (eventName ticket)
    (eventDate ticket)
    ("Ticket #" ++ numToString (tokenId ticket))
    (isUpcoming n3 (eventDate ticket) && negb (used ticket))
    ("/tickets/" ++ numToString (tokenId ticket)).

(** [bucket.map(renderTicketCard)], the first card reading the clock at
    [i].  When the [src] expression of a card throws, the exception
    leaves the render. *)
Fixpoint renderCards (w : World) (clock : Clock) (i : nat) (ts : list TicketRecord)
  : Res (list Card) :=
  match ts with
  | [] => Ok []
  | ticket :: r =>
      match imgSrc w ticket with
      | Throw e => Throw e
      | Ok _ =>
          match renderCards w clock (i + 3)%nat r with
          | Throw e => Throw e
          | Ok cards =>
              Ok (renderTicketCardAt w (clock i) (clock (i + 1)%nat)
                                     (clock (i + 2)%nat) ticket :: cards)
          end
      end
  end.

(** The three sections for one clock reading, each present only when it
    has a card. *)
Definition ticketSections (w : World) (now : Z) (ts : list TicketRecord)
  : list (string * list Card) :=
  section "Upcoming Events" (map (renderTicketCard w now) (upcomingTickets now ts))
  ++ section "Used Tickets" (map (renderTicketCard w now) (usedTickets ts))
  ++ section "Expired Tickets" (map (renderTicketCard w now) (expiredTickets now ts)).

(** [if (error)]: the message, when the cell holds a non-empty one. *)
Definition errorShown (s : St) : option string :=
  match error s with
  | Some msg => if truthy (Str msg) then Some msg else None
  | None => None
  end.

(** The component body after the hooks.  The two filters that call
    [isUpcoming] read the clock first, one reading for each ticket, then
    the cards, three readings each, section after section.  [Throw] is
    a render that throws. *)
Definition render (w : World) (clock : Clock) (isConnected : Val) (s : St)
  : Res View :=
  if negb (truthy isConnected) then Ok RenderNull
  else if loading s then Ok RenderLoading
  else
    match errorShown s with
    | Some msg => Ok (RenderError msg)
    | None =>
        let n := List.length (tickets s) in
        let upcoming :=
          filterAt clock 0
            (fun now ticket => isUpcoming now (eventDate ticket) && negb (used ticket))
            (tickets s) in
        let usedOnes := usedTickets (tickets s) in
        let expired :=
          filterAt clock n
            (fun now ticket =>
               negb (isUpcoming now (eventDate ticket)) && negb (used ticket))
            (tickets s) in
        if Z.of_nat n =? 0 then Ok RenderNoTickets
        else
          match renderCards w clock (2 * n)%nat upcoming with
          | Throw e => Throw e
          | Ok upcomingCards =>
              match renderCards w clock (2 * n + 3 * List.length upcoming)%nat usedOnes with
              | Throw e => Throw e
              | Ok usedCards =>
                  match renderCards w clock
                          (2 * n + 3 * List.length upcoming
                           + 3 * List.length usedOnes)%nat
                          expired with
                  | Throw e => Throw e
                  | Ok expiredCards =>
                      Ok (RenderSections
                            (section "Upcoming Events" upcomingCards
                             ++ section "Used Tickets" usedCards
                             ++ section "Expired Tickets" expiredCards))
                  end
              end
          end
    end.

(** The cards of a view, in the order they are shown. *)
Definition cardsOf (v : View) : list Card :=
  match v with
  | RenderSections sections => flat_map snd sections
  | _ => []
  end.

(** A field that is truthy without being a string: calling
    [toLowerCase] on it throws. *)
Definition notText (v : Val) : bool :=
  truthy v && match v with Str _ => false | _ => true end.

(** The event object matches the "cultural" rule. *)
Definition culturalEvent (ev : Event) : Prop :=
  containsIgnoreCase (textOf (ev_name ev)) "cultural"
  \/ containsIgnoreCase (textOf (ev_description ev)) "cultural".

(** The message the page shows after a failed pass. *)
Definition loadFailure : string :=
  "Failed to load your tickets. Please try again later.".

(** The log query of the pass succeeds with [events]. *)
Definition scanSucceeds (w : World) (account : string)
           (events : list TransferEvent) : Prop :=
  getContract w = Ok tt /\ queryFilter w account = Ok events.

(** The log query of the pass fails with [e]. *)
Definition scanFails (w : World) (account : string) (e : Exn) : Prop :=
  getContract w = Throw e
  \/ (getContract w = Ok tt /\ queryFilter w account = Throw e).


(** The values of [l] in order of first occurrence, by recursion on
    [l]. *)
Fixpoint firstOccurrences (l : list Z) : list Z :=
  match l with
  | [] => []
  | x :: r => x :: filter (fun y => negb (y =? x)) (firstOccurrences r)
  end.

(** The console lines of the two [catch] blocks of the loop. *)
Definition processingError (k : Z) (e : Exn) : LogEntry :=
  ConsoleError ("Error processing token " ++ numToString k ++ ":") e.

Definition metadataError (k : Z) (e : Exn) : LogEntry :=
  ConsoleError ("Error fetching metadata for token " ++ numToString k ++ ":") e.

(** The token-URI lookup of token [k] fails with [e], the lookups
    before it having succeeded. *)
Definition uriLookupFails (w : World) (account : string) (k : Z) (e : Exn) : Prop :=
  exists o t ev,
    ownerOf w k = Ok o /\ sameAddress o account
    /\ getTicket w k = Ok t /\ getEvent w k (tk_eventId t) = Ok ev
    /\ getTokenURI w k = Throw e.

(** Record [r] carries what the ledger answered for its token. *)
Definition reflectsLedger (w : World) (account : string) (r : TicketRecord) : Prop :=
  exists o t ev,
    ownerOf w (tokenId r) = Ok o /\ sameAddress o account
    /\ getTicket w (tokenId r) = Ok t
    /\ getEvent w (tokenId r) (tk_eventId t) = Ok ev
    /\ eventId r = tk_eventId t /\ eventName r = evt_name ev
    /\ eventDate r = evt_date ev
    /\ used r = tk_used t /\ locked r = tk_locked t.

(** The metadata of [r] is the body parsed for its token, as it came. *)
Definition parsedMetadata (w : World) (r : TicketRecord) : Prop :=
  exists uri url resp,
    getTokenURI w (tokenId r) = Ok uri /\ ipfsToHttp w uri = Ok url
    /\ fetch w (tokenId r) url = Ok resp /\ json w resp = Ok (metadata r).

(** The state at mount, wrapped in a page that has not navigated. *)
Definition initialPage : Page := mkPage initialSt None.

(** The world of the example with the log query failing. *)
Definition brokenWorld : World :=
  mkWorld (Ok tt) (fun _ => Throw (Error "network error"))
          (ownerOf Demo.world) (getTicket Demo.world) (getEvent Demo.world)
          (getTokenURI Demo.world) (ipfsToHttp Demo.world) (fetch Demo.world)
          (json Demo.world).

(** The world of the example with the token-URI lookup of token 3
    failing. *)
Definition worldWithoutUri3 : World :=
  mkWorld (getContract Demo.world) (queryFilter Demo.world)
          (ownerOf Demo.world) (getTicket Demo.world) (getEvent Demo.world)
          (fun k => if k =? 3 then Throw (Error "call revert exception")
                    else getTokenURI Demo.world k)
          (ipfsToHttp Demo.world) (fetch Demo.world) (json Demo.world).

(** The world of the example with every metadata body carrying a
    number as its description and an empty image. *)
Definition worldWithNumericDescription : World :=
  mkWorld (getContract Demo.world) (queryFilter Demo.world)
          (ownerOf Demo.world) (getTicket Demo.world) (getEvent Demo.world)
          (getTokenURI Demo.world) (ipfsToHttp Demo.world) (fetch Demo.world)
          (fun _ => Ok (mkMetadata (Str "Front row") (Num 5) (Str ""))).

(** The state in which the loop of a pass started from [s] begins. *)
Definition loopStart (s : St) : St :=
  mkSt (tickets s) true (error s) [] (console s).

(** [userTickets] as the loop of a pass started from [s] leaves it,
    before the sort. *)
Definition pushedBy (w : World) (account : string) (events : list TransferEvent)
           (s : St) : list TicketRecord :=
  userTickets (snd (forOf (spreadSet (map tr_tokenId events))
                          (processToken w account) (loopStart s))).

(** A clock that reads [now] at every call. *)
Definition oneReading (clock : Clock) (now : Z) : Prop := forall i, clock i = now.

(** The transfers the example's log query returns. *)
Definition demoEvents : list TransferEvent :=
  [ mkTransfer "0x00" "0xabcdef01" 3;
    mkTransfer "0x11" "0xabcdef01" 7;
    mkTransfer "0x22" "0xabcdef01" 9;
    mkTransfer "0x33" "0xabcdef01" 3 ].


(* ================================================================== *)
(** ** Strings *)
(* ================================================================== *)

Lemma startsWith_iff (p s : string) :
  startsWith p s = true <-> exists suf, s = p ++ suf.
Proof.
  revert s; induction p as [|a p IH]; intros s; simpl.
  - split; [intros _; now exists s | reflexivity].
  - destruct s as [|b s].
    + split; [discriminate | intros [suf H]; discriminate].
    + rewrite andb_true_iff, Ascii.eqb_eq, IH. split.
      * intros [-> [suf ->]]. now exists suf.
      * intros [suf H]. injection H as -> ->. split; [reflexivity | now exists suf].
Qed.

Lemma includes_iff (s p : string) :
  includes s p = true <-> exists pre suf, s = pre ++ p ++ suf.
Proof.
  induction s as [|c s IH]; simpl.
  - destruct (startsWith p "") eqn:E.
    + apply startsWith_iff in E. destruct E as [suf E].
      split; [intros _; now exists "", suf | reflexivity].
    + split; [discriminate |].
      intros [pre [suf H]]. destruct pre; [|discriminate]. simpl in H.
      assert (startsWith p "" = true) by (apply startsWith_iff; now exists suf).
      congruence.
  - destruct (startsWith p (String c s)) eqn:E.
    + apply startsWith_iff in E. destruct E as [suf E].
      split; [intros _; now exists "", suf | reflexivity].
    + rewrite IH. split.
      * intros [pre [suf ->]]. now exists (String c pre), suf.
      * intros [pre [suf H]]. destruct pre as [|c' pre].
        -- simpl in H.
           assert (startsWith p (String c s) = true)
             by (apply startsWith_iff; now exists suf).
           congruence.
        -- simpl in H. injection H as -> ->. now exists pre, suf.
Qed.

Lemma toLowerCase_app (a b : string) :
  toLowerCase (a ++ b) = toLowerCase a ++ toLowerCase b.
Proof. induction a as [|c a IH]; simpl; [reflexivity | now rewrite IH]. Qed.

Lemma toLowerCase_split (s a b : string) :
  toLowerCase s = a ++ b ->
  exists sa sb, s = sa ++ sb /\ toLowerCase sa = a /\ toLowerCase sb = b.
Proof.
  revert s; induction a as [|c a IH]; intros s H; simpl in H.
  - now exists "", s.
  - destruct s as [|d s]; [discriminate |]. simpl in H.
    injection H as Hc H. destruct (IH _ H) as [sa [sb [-> [Ha Hb]]]].
    exists (String d sa), sb. simpl. now rewrite Hc, Ha.
Qed.

Lemma lowerChar_idem (c : ascii) : lowerChar (lowerChar c) = lowerChar c.
Proof.
  destruct c as [[] [] [] [] [] [] [] []]; reflexivity.
Qed.

Lemma toLowerCase_idem (s : string) : toLowerCase (toLowerCase s) = toLowerCase s.
Proof.
  induction s as [|c s IH]; simpl; [reflexivity | now rewrite lowerChar_idem, IH].
Qed.

(** The test of the code decides containment up to case. *)
Lemma lower_includes_iff (s w : string) :
  includes (toLowerCase s) (toLowerCase w) = true <-> containsIgnoreCase s w.
Proof.
  rewrite includes_iff. split.
  - intros [pre [suf H]].
    apply toLowerCase_split in H. destruct H as [sa [sb [-> [_ H]]]].
    apply toLowerCase_split in H. destruct H as [sm [sc [-> [Hm _]]]].
    exists sa, sm, sc. split; [reflexivity | exact Hm].
  - intros [pre [mid [suf [-> Hm]]]].
    exists (toLowerCase pre), (toLowerCase suf).
    now rewrite !toLowerCase_app, Hm.
Qed.

Lemma cultural_iff (s : string) :
  includes (toLowerCase s) "cultural" = true <-> containsIgnoreCase s "cultural".
Proof. exact (lower_includes_iff s "cultural"). Qed.

Lemma cultural_false_iff (s : string) :
  includes (toLowerCase s) "cultural" = false <-> ~ containsIgnoreCase s "cultural".
Proof.
  rewrite <- cultural_iff. destruct (includes _ _); split; congruence.
Qed.

(* ================================================================== *)
(** ** The fallback image selector *)
(* ================================================================== *)

Example fallback_spring_festival :
  getTicketFallbackImage
    (Some (mkEvent (Num 1) (Str "Spring Festival") (Str "Cultural celebration")))
    (Num 0)
  = Ok (elementAt CULTURAL_TICKET_IMAGES 0).
Proof. reflexivity. Qed.

Example fallback_concert_7 :
  getTicketFallbackImage
    (Some (mkEvent (Num 1) (Str "Rock Concert") (Str ""))) (Num 7)
  = Ok (Str "https://img.freepik.com/free-vector/cinema-tickets-set_1017-30634.jpg").
Proof. reflexivity. Qed.

Example fallback_cultural_7 :
  getTicketFallbackImage
    (Some (mkEvent (Num 1) (Str "A CULTURAL night") Undefined)) (Num 7)
  = Ok (Str "https://img.freepik.com/free-photo/woman-dancing-traditional-chinese-clothing_23-2149064502.jpg").
Proof. reflexivity. Qed.

(** A description that is neither a string nor falsy makes the selector
    throw. *)
Example fallback_numeric_description :
  getTicketFallbackImage
    (Some (mkEvent (Num 1) (Str "Rock Concert") (Num 5))) (Num 7)
  = Throw (Error "TypeError: toLowerCase is not a function").
Proof. reflexivity. Qed.

Lemma guardedCultural_str (s : string) :
  guardedCultural (Str s) = Ok (includes (toLowerCase s) "cultural").
Proof.
  unfold guardedCultural; simpl. destruct s; reflexivity.
Qed.

Lemma guardedCultural_falsy (v : Val) :
  truthy v = false -> guardedCultural v = Ok false.
Proof. unfold guardedCultural. now intros ->. Qed.

Lemma isCulturalEvent_str (ev : Event) (nm ds : string) :
  ev_name ev = Str nm -> ev_description ev = Str ds ->
  isCulturalEvent ev
  = Ok (includes (toLowerCase nm) "cultural" || includes (toLowerCase ds) "cultural").
Proof.
  intros Hn Hd. unfold isCulturalEvent.
  rewrite Hn, Hd, !guardedCultural_str.
  destruct (includes (toLowerCase nm) "cultural"); reflexivity.
Qed.

Lemma guardedCultural_textual (v : Val) :
  textual v ->
  guardedCultural v = Ok (includes (toLowerCase (textOf v)) "cultural").
Proof.
  destruct v as [| |b|n|s]; simpl; try tauto; try reflexivity.
  intros _. apply guardedCultural_str.
Qed.

Lemma isCulturalEvent_textual (ev : Event) :
  textual (ev_name ev) -> textual (ev_description ev) ->
  isCulturalEvent ev
  = Ok (includes (toLowerCase (textOf (ev_name ev))) "cultural"
        || includes (toLowerCase (textOf (ev_description ev))) "cultural").
Proof.
  intros Hn Hd. unfold isCulturalEvent.
  rewrite (guardedCultural_textual _ Hn), (guardedCultural_textual _ Hd).
  destruct (includes (toLowerCase (textOf (ev_name ev))) "cultural"); reflexivity.
Qed.

(** Inside the table, [arr[i]] is the table's entry. *)
Lemma elementAt_in_range (arr : list string) (i : Z) :
  0 <= i < lengthOf arr ->
  exists img, nth_error arr (Z.to_nat i) = Some img /\ elementAt arr i = Str img.
Proof.
  intros [H0 H1]. unfold elementAt, lengthOf in *.
  destruct (i <? 0) eqn:E; [apply Z.ltb_lt in E; lia |].
  destruct (nth_error arr (Z.to_nat i)) as [img|] eqn:N.
  - now exists img.
  - apply nth_error_None in N. lia.
Qed.

(** On a positive dividend [%] is the mathematical remainder. *)
Lemma remainder_mod (n m : Z) : 0 <= n -> 0 < m -> remainder n m = n mod m.
Proof. intros. unfold remainder. apply Z.rem_mod_nonneg; lia. Qed.

Lemma table_entries_nonempty (i : Z) (img : string) :
  nth_error DEFAULT_TICKET_IMAGES (Z.to_nat i) = Some img
  \/ nth_error CULTURAL_TICKET_IMAGES (Z.to_nat i) = Some img ->
  img <> "".
Proof.
  intros H.
  destruct (Z.to_nat i) as [|[|[|[|[|[|k]]]]]]; simpl in H;
    destruct H as [H | H]; try discriminate; injection H as <-; discriminate.
Qed.

Lemma nonzero_id (n : Z) :
  n <> 0 -> orb (strictEq (Num n) (Num 0)) (strictEq (Num n) (Str "0")) = false.
Proof. intros H. simpl. rewrite orb_false_r. now apply Z.eqb_neq. Qed.

(** C2.  For every event object, whatever its name and description hold,
    the selector applied to token id 0 (the number, or the string "0")
    returns the first entry of [CULTURAL_TICKET_IMAGES]. *)
Theorem fallback_ticket_zero (ev : Event) :
  nth_error CULTURAL_TICKET_IMAGES 0
    = Some "https://img.freepik.com/free-photo/traditional-cultural-dance-performance-stage_53876-138776.jpg"
  /\ getTicketFallbackImage (Some ev) (Num 0)
     = Ok (Str "https://img.freepik.com/free-photo/traditional-cultural-dance-performance-stage_53876-138776.jpg")
  /\ getTicketFallbackImage (Some ev) (Str "0")
     = Ok (Str "https://img.freepik.com/free-photo/traditional-cultural-dance-performance-stage_53876-138776.jpg").
Proof. repeat split. Qed.

(** C3.  For an event whose name and description are strings (or
    absent) and a token id [n > 0]: when the name or the description
    contains "cultural" up to case, the selector returns
    [CULTURAL_TICKET_IMAGES[n mod 5]]; otherwise it returns
    [DEFAULT_TICKET_IMAGES[n mod 5]]; the entry exists in both cases, and
    equal arguments give equal results. *)
Theorem fallback_nonzero_ticket (ev : Event) (n : Z) :
  textual (ev_name ev) -> textual (ev_description ev) -> 0 < n ->
  (containsIgnoreCase (textOf (ev_name ev)) "cultural"
   \/ containsIgnoreCase (textOf (ev_description ev)) "cultural" ->
   exists img,
     nth_error CULTURAL_TICKET_IMAGES
               (Z.to_nat (n mod lengthOf CULTURAL_TICKET_IMAGES)) = Some img
     /\ getTicketFallbackImage (Some ev) (Num n) = Ok (Str img))
  /\ (~ (containsIgnoreCase (textOf (ev_name ev)) "cultural"
         \/ containsIgnoreCase (textOf (ev_description ev)) "cultural") ->
      exists img,
        nth_error DEFAULT_TICKET_IMAGES
                  (Z.to_nat (n mod lengthOf DEFAULT_TICKET_IMAGES)) = Some img
        /\ getTicketFallbackImage (Some ev) (Num n) = Ok (Str img))
  /\ (forall ev' id', ev' = ev -> id' = Num n ->
      getTicketFallbackImage (Some ev') id' = getTicketFallbackImage (Some ev) (Num n)).
Proof.
  intros Hn Hd Hpos.
  set (nm := textOf (ev_name ev)). set (ds := textOf (ev_description ev)).
  assert (Hsel : getTicketFallbackImage (Some ev) (Num n)
                 = if includes (toLowerCase nm) "cultural"
                      || includes (toLowerCase ds) "cultural"
                   then Ok (elementAt CULTURAL_TICKET_IMAGES
                                      (n mod lengthOf CULTURAL_TICKET_IMAGES))
                   else Ok (elementAt DEFAULT_TICKET_IMAGES
                                      (n mod lengthOf DEFAULT_TICKET_IMAGES))).
  { unfold getTicketFallbackImage.
    rewrite nonzero_id by lia.
    rewrite (isCulturalEvent_textual ev Hn Hd). fold nm ds. simpl numericId.
    rewrite !remainder_mod by (unfold lengthOf; simpl; lia).
    destruct (_ || _); reflexivity. }
  split; [|split].
  - intros Hc.
    assert (E : includes (toLowerCase nm) "cultural"
                || includes (toLowerCase ds) "cultural" = true).
    { apply orb_true_iff. destruct Hc as [Hc | Hc]; [left | right];
        now apply cultural_iff. }
    rewrite E in Hsel.
    destruct (elementAt_in_range CULTURAL_TICKET_IMAGES
                (n mod lengthOf CULTURAL_TICKET_IMAGES)) as [img [Hi He]].
    { apply Z.mod_pos_bound. unfold lengthOf; simpl; lia. }
    exists img. split; [exact Hi | now rewrite Hsel, He].
  - intros Hc.
    assert (E : includes (toLowerCase nm) "cultural"
                || includes (toLowerCase ds) "cultural" = false).
    { apply orb_false_iff. split; apply cultural_false_iff; tauto. }
    rewrite E in Hsel.
    destruct (elementAt_in_range DEFAULT_TICKET_IMAGES
                (n mod lengthOf DEFAULT_TICKET_IMAGES)) as [img [Hi He]].
    { apply Z.mod_pos_bound. unfold lengthOf; simpl; lia. }
    exists img. split; [exact Hi | now rewrite Hsel, He].
  - intros ev' id' -> ->. reflexivity.
Qed.

Lemma fallback_nonzero_ticket_witness :
  exists img,
    nth_error DEFAULT_TICKET_IMAGES
              (Z.to_nat (7 mod lengthOf DEFAULT_TICKET_IMAGES)) = Some img
    /\ getTicketFallbackImage
         (Some (mkEvent (Num 1) (Str "Rock Concert") Undefined))
         (Num 7) = Ok (Str img).
Proof.
  refine (proj1 (proj2 (fallback_nonzero_ticket
            (mkEvent (Num 1) (Str "Rock Concert") Undefined) 7 _ _ _)) _).
  - simpl. exact I.
  - simpl. exact I.
  - lia.
  - intros [H | H]; apply cultural_iff in H; vm_compute in H; discriminate.
Defined.

(** C10.  With no event object the selector returns
    [DEFAULT_TICKET_IMAGES[0]] for every token id, token id 0 included:
    the missing-event guard comes before the rule for ticket 0. *)
Theorem fallback_without_event (ticketId : Val) :
  nth_error DEFAULT_TICKET_IMAGES 0
    = Some "https://img.freepik.com/free-vector/realistic-concert-entrance-tickets-set_1017-30605.jpg"
  /\ getTicketFallbackImage None ticketId
     = Ok (Str "https://img.freepik.com/free-vector/realistic-concert-entrance-tickets-set_1017-30605.jpg")
  /\ getTicketFallbackImage None (Num 0)
     <> Ok (elementAt CULTURAL_TICKET_IMAGES 0).
Proof. repeat split. discriminate. Qed.

(* ================================================================== *)
(** ** The image of a ticket card *)
(* ================================================================== *)

Lemma ticketEvent_description (t : TicketRecord) :
  textual (md_description (metadata t)) ->
  ev_description (ticketEvent t) = Str (descriptionText t).
Proof.
  unfold ticketEvent, descriptionText, textOf, orElse; simpl.
  destruct (md_description (metadata t)) as [| |b|n|s]; simpl; try tauto.
  destruct s; reflexivity.
Qed.

(** The selector at the call site of the card, for a ticket other than
    ticket 0. *)
Lemma fallback_of_ticket (t : TicketRecord) :
  textual (md_description (metadata t)) -> 0 < tokenId t ->
  getTicketFallbackImage (Some (ticketEvent t)) (Num (tokenId t))
  = Ok (elementAt
          (if includes (toLowerCase (eventName t)) "cultural"
              || includes (toLowerCase (descriptionText t)) "cultural"
           then CULTURAL_TICKET_IMAGES else DEFAULT_TICKET_IMAGES)
          (tokenId t mod 5)).
Proof.
  intros Hd Hpos. unfold getTicketFallbackImage.
  rewrite nonzero_id by lia.
  rewrite (isCulturalEvent_str (ticketEvent t) (eventName t) (descriptionText t)
             eq_refl (ticketEvent_description t Hd)).
  simpl numericId.
  rewrite !remainder_mod by (unfold lengthOf; simpl; lia).
  destruct (_ || _); reflexivity.
Qed.

Lemma culturalTicket_iff (t : TicketRecord) :
  includes (toLowerCase (eventName t)) "cultural"
  || includes (toLowerCase (descriptionText t)) "cultural" = true
  <-> culturalTicket t.
Proof.
  unfold culturalTicket. now rewrite orb_true_iff, !cultural_iff.
Qed.

(** The selector never fails and never returns an empty locator on a
    ticket whose description is a string or absent. *)
Lemma fallback_of_ticket_nonempty (t : TicketRecord) :
  textual (md_description (metadata t)) -> 0 <= tokenId t ->
  exists url,
    getTicketFallbackImage (Some (ticketEvent t)) (Num (tokenId t)) = Ok (Str url)
    /\ url <> "".
Proof.
  intros Hd Hn.
  destruct (Z.eq_dec (tokenId t) 0) as [E | E].
  - rewrite E. eexists. split; [reflexivity | discriminate].
  - rewrite fallback_of_ticket by (trivial; lia).
    set (tbl := if _ || _ then _ else _).
    destruct (elementAt_in_range tbl (tokenId t mod 5)) as [img [Hi He]].
    { replace (lengthOf tbl) with 5 by (subst tbl; destruct (_ || _); reflexivity).
      apply Z.mod_pos_bound; lia. }
    exists img. split; [now rewrite He |].
    apply (table_entries_nonempty (tokenId t mod 5)).
    subst tbl. destruct (_ || _); auto.
Qed.

(** C1, as stated, fails: for ticket 1 of a concert the selector picks
    the second default image, the error handler the first. *)
Lemma onError_disagrees_with_selector :
  getTicketFallbackImage (Some (ticketEvent Demo.concertTicket))
                         (Num (tokenId Demo.concertTicket))
  = Ok (Str "https://img.freepik.com/free-vector/realistic-golden-ticket-template_52683-35936.jpg")
  /\ onErrorSrc Demo.concertTicket
     = Str "https://img.freepik.com/free-vector/realistic-concert-entrance-tickets-set_1017-30605.jpg"
  /\ getTicketFallbackImage (Some (ticketEvent Demo.concertTicket))
                            (Num (tokenId Demo.concertTicket))
     <> Ok (onErrorSrc Demo.concertTicket).
Proof. repeat split. discriminate. Qed.

(** C1, amended.  The error handler installs [CULTURAL_TICKET_IMAGES[0]]
    for ticket 0 and [DEFAULT_TICKET_IMAGES[0]] for every other ticket,
    whatever the event.  On a ticket with a non-negative id and a
    description that is a string or absent, it agrees with the selector
    exactly when the id is 0, or the event does not match "cultural" and
    the id modulo 5 is 0, 3 or 4 (the positions of
    [DEFAULT_TICKET_IMAGES] that hold its first image). *)
Theorem onError_agrees_iff (t : TicketRecord) :
  textual (md_description (metadata t)) -> 0 <= tokenId t ->
  onErrorSrc t
  = (if tokenId t =? 0 then elementAt CULTURAL_TICKET_IMAGES 0
     else elementAt DEFAULT_TICKET_IMAGES 0)
  /\ (getTicketFallbackImage (Some (ticketEvent t)) (Num (tokenId t))
      = Ok (onErrorSrc t)
      <-> tokenId t = 0
          \/ (~ culturalTicket t
              /\ (tokenId t mod 5 = 0 \/ tokenId t mod 5 = 3 \/ tokenId t mod 5 = 4))).
Proof.
  intros Hd Hn. split.
  - unfold onErrorSrc; simpl. destruct (tokenId t =? 0); reflexivity.
  - destruct (Z.eq_dec (tokenId t) 0) as [E | E].
    + unfold onErrorSrc. rewrite E. split; [now left | reflexivity].
    + rewrite fallback_of_ticket by (trivial; lia).
      unfold onErrorSrc; simpl strictEq.
      destruct (tokenId t =? 0) eqn:Ez; [apply Z.eqb_eq in Ez; contradiction |].
      rewrite <- culturalTicket_iff.
      pose proof (Z.mod_pos_bound (tokenId t) 5 ltac:(lia)) as Hb.
      destruct (_ || _).
      * split.
        -- intros H.
           assert (Hc : tokenId t mod 5 = 0 \/ tokenId t mod 5 = 1
                        \/ tokenId t mod 5 = 2 \/ tokenId t mod 5 = 3
                        \/ tokenId t mod 5 = 4) by lia.
           destruct Hc as [Hc | [Hc | [Hc | [Hc | Hc]]]];
             rewrite Hc in H; discriminate.
        -- intros [H | [H _]]; [contradiction | congruence].
      * split.
        -- intros H. right. split; [discriminate |].
           assert (Hc : tokenId t mod 5 = 0 \/ tokenId t mod 5 = 1
                        \/ tokenId t mod 5 = 2 \/ tokenId t mod 5 = 3
                        \/ tokenId t mod 5 = 4) by lia.
           destruct Hc as [Hc | [Hc | [Hc | [Hc | Hc]]]];
             try tauto; rewrite Hc in H; discriminate.
        -- intros [H | [_ [H | [H | H]]]]; [contradiction | | |];
             rewrite H; reflexivity.
Qed.

Lemma onError_agrees_iff_witness :
  getTicketFallbackImage (Some (ticketEvent Demo.concertTicket))
                         (Num (tokenId Demo.concertTicket))
  = Ok (onErrorSrc Demo.concertTicket)
  <-> tokenId Demo.concertTicket = 0
      \/ (~ culturalTicket Demo.concertTicket
          /\ (tokenId Demo.concertTicket mod 5 = 0
              \/ tokenId Demo.concertTicket mod 5 = 3
              \/ tokenId Demo.concertTicket mod 5 = 4)).
Proof.
  refine (proj2 (onError_agrees_iff Demo.concertTicket _ _)).
  - simpl. exact I.
  - simpl. lia.
Defined.

(** C4, as stated, fails: the pass stores the parsed body unchecked,
    and a resolved record whose description is the number 5 and whose
    image is empty has no image at all: its [src] expression throws. *)
Lemma imgSrc_throws_on_resolved_record :
  let r := mkRecord 3 7 "Rock Concert" 7000 false false
                    (mkMetadata (Str "Front row") (Num 5) (Str "")) in
  In r (tickets (snd (fetchUserTickets worldWithNumericDescription Demo.account
                                       initialSt)))
  /\ 0 <= tokenId r
  /\ imgSrc worldWithNumericDescription r
     = Throw (Error "TypeError: toLowerCase is not a function")
  /\ ~ (exists url, imgSrc worldWithNumericDescription r = Ok (Str url) /\ url <> "").
Proof.
  simpl. split; [vm_compute; right; left; reflexivity |].
  split; [lia |]. split; [reflexivity |].
  intros [url [H _]]. vm_compute in H. discriminate.
Qed.

(** C4, amended.  For a ticket whose metadata fields are strings or absent and
    whose id is not negative: when [metadata.image] is a non-empty
    string the card shows its translation by [ipfsToHttp]; otherwise it
    shows what the selector returns, which is a non-empty string; and
    the card's image is a non-empty string as soon as [ipfsToHttp] maps
    non-empty strings to non-empty strings. *)
Theorem imgSrc_nonempty (w : World) (t : TicketRecord) :
  wfMetadata (metadata t) -> 0 <= tokenId t ->
  (forall s, md_image (metadata t) = Str s -> s <> "" ->
             imgSrc w t = ipfsToHttp w (Str s))
  /\ (~ (exists s, md_image (metadata t) = Str s /\ s <> "") ->
      exists url,
        getTicketFallbackImage (Some (ticketEvent t)) (Num (tokenId t)) = Ok (Str url)
        /\ imgSrc w t = Ok (Str url) /\ url <> "")
  /\ ((forall s, s <> "" -> exists u, ipfsToHttp w (Str s) = Ok (Str u) /\ u <> "") ->
      exists url, imgSrc w t = Ok (Str url) /\ url <> "").
Proof.
  intros [_ [Hd Hi]] Hn.
  destruct (fallback_of_ticket_nonempty t Hd Hn) as [fb [Hfb Hne]].
  assert (Himg : forall s, md_image (metadata t) = Str s -> s <> "" ->
                           imgSrc w t = ipfsToHttp w (Str s)).
  { intros s E Hs. unfold imgSrc. rewrite E. simpl.
    destruct s; [contradiction | reflexivity]. }
  assert (Hfall : ~ (exists s, md_image (metadata t) = Str s /\ s <> "") ->
                  imgSrc w t = Ok (Str fb)).
  { intros Hno. unfold imgSrc.
    destruct (md_image (metadata t)) as [| |b|n|s] eqn:E; simpl in *; try tauto.
    destruct s; [exact Hfb |].
    exfalso. apply Hno. eexists. split; [reflexivity | discriminate]. }
  split; [exact Himg | split].
  - intros Hno. exists fb. auto.
  - intros Hipfs.
    destruct (md_image (metadata t)) as [| |b|n|s] eqn:E;
      try (exists fb; split; [apply Hfall; intros [s' [Hs' _]]; discriminate | exact Hne]);
      try (simpl in Hi; contradiction).
    destruct (string_dec s "") as [-> | Hs].
    + exists fb. split; [|exact Hne].
      apply Hfall. intros [s' [Hs' Hs'']]. injection Hs' as <-. contradiction.
    + destruct (Hipfs s Hs) as [u [Hu Hune]].
      exists u. split; [|exact Hune]. rewrite (Himg s eq_refl Hs). exact Hu.
Qed.

Lemma imgSrc_nonempty_witness :
  exists url, imgSrc Demo.world Demo.concertTicket = Ok (Str url) /\ url <> "".
Proof.
  refine (proj2 (proj2 (imgSrc_nonempty Demo.world Demo.concertTicket _ _)) _).
  - unfold wfMetadata; simpl. tauto.
  - simpl. lia.
  - intros s Hs. simpl. eexists. split; [reflexivity | discriminate].
Defined.

(* ================================================================== *)
(** ** Sorting by event date *)
(* ================================================================== *)

Section SortFacts.
Context {A : Type} (cmp : A -> A -> Z).

Lemma insert_perm (x : A) (l : list A) : Permutation (insert cmp x l) (x :: l).
Proof.
  induction l as [|y r IH]; simpl; [reflexivity |].
  destruct (cmp x y <=? 0); [reflexivity |].
  rewrite IH. apply perm_swap.
Qed.

Lemma sort_perm (l : list A) : Permutation (sort cmp l) l.
Proof.
  induction l as [|x r IH]; simpl; [reflexivity |].
  rewrite insert_perm. now constructor.
Qed.

Lemma filter_comm (p q : A -> bool) (l : list A) :
  filter p (filter q l) = filter q (filter p l).
Proof.
  induction l as [|x r IH]; simpl; [reflexivity |].
  destruct (q x) eqn:Q, (p x) eqn:P; simpl; rewrite ?Q, ?P, IH; reflexivity.
Qed.

Lemma filter_StronglySorted (R : A -> A -> Prop) (p : A -> bool) (l : list A) :
  StronglySorted R l -> StronglySorted R (filter p l).
Proof.
  induction 1 as [|x r Hs IH Hx]; simpl; [constructor |].
  destruct (p x); [|exact IH].
  constructor; [exact IH |].
  rewrite Forall_forall in *. intros y Hy.
  apply filter_In in Hy. now apply Hx.
Qed.
End SortFacts.

Lemma insert_head (x : TicketRecord) (l : list TicketRecord) :
  Forall (dateLe x) l -> insert byEventDate x l = x :: l.
Proof.
  intros H. destruct l as [|y r]; simpl; [reflexivity |].
  inversion H as [|? ? Hxy _]; subst. unfold dateLe in Hxy.
  unfold byEventDate. destruct (Z.leb_spec (eventDate x - eventDate y) 0); [reflexivity | lia].
Qed.

Lemma insert_sorted (x : TicketRecord) (l : list TicketRecord) :
  StronglySorted dateLe l -> StronglySorted dateLe (insert byEventDate x l).
Proof.
  induction 1 as [|y r Hs IH Hy]; simpl.
  - repeat constructor.
  - unfold byEventDate at 1.
    destruct (Z.leb_spec (eventDate x - eventDate y) 0) as [Hle | Hgt].
    + constructor; [now constructor |].
      constructor; [unfold dateLe; lia |].
      rewrite Forall_forall in *. intros z Hz.
      specialize (Hy z Hz). unfold dateLe in *. lia.
    + constructor; [exact IH |].
      rewrite Forall_forall in *. intros z Hz.
      apply (Permutation_in _ (insert_perm byEventDate x r)) in Hz.
      destruct Hz as [<- | Hz]; [unfold dateLe; lia | now apply Hy].
Qed.

Lemma sort_sorted (l : list TicketRecord) :
  StronglySorted dateLe (sort byEventDate l).
Proof.
  induction l as [|x r IH]; simpl; [constructor | now apply insert_sorted].
Qed.

(** Insertion does not move [x] past a record of the same date. *)
Lemma datedAt_insert (d : Z) (x : TicketRecord) (l : list TicketRecord) :
  datedAt d (insert byEventDate x l) = datedAt d (x :: l).
Proof.
  induction l as [|y r IH]; [reflexivity |].
  simpl insert. unfold byEventDate at 1.
  destruct (Z.leb_spec (eventDate x - eventDate y) 0) as [Hle | Hgt]; [reflexivity |].
  unfold datedAt in *. simpl in *. rewrite IH.
  destruct (Z.eqb_spec (eventDate y) d), (Z.eqb_spec (eventDate x) d);
    try reflexivity; lia.
Qed.

(** The sort is stable: records of one date keep their order. *)
Lemma sort_stable (d : Z) (l : list TicketRecord) :
  datedAt d (sort byEventDate l) = datedAt d l.
Proof.
  induction l as [|x r IH]; [reflexivity |].
  simpl sort. rewrite datedAt_insert. unfold datedAt in *. simpl.
  now rewrite IH.
Qed.

Lemma filter_insert (p : TicketRecord -> bool) (x : TicketRecord)
      (l : list TicketRecord) :
  StronglySorted dateLe l ->
  filter p (insert byEventDate x l)
  = if p x then insert byEventDate x (filter p l) else filter p l.
Proof.
  induction 1 as [|y r Hs IH Hy]; simpl.
  - destruct (p x); reflexivity.
  - unfold byEventDate at 1.
    destruct (Z.leb_spec (eventDate x - eventDate y) 0) as [Hle | Hgt].
    + simpl. destruct (p x) eqn:Px; [|reflexivity].
      destruct (p y) eqn:Py; symmetry.
      * apply insert_head. constructor; [unfold dateLe; lia |].
        rewrite Forall_forall in *. intros z Hz. apply filter_In in Hz.
        specialize (Hy z (proj1 Hz)). unfold dateLe in *. lia.
      * apply insert_head.
        rewrite Forall_forall in *. intros z Hz. apply filter_In in Hz.
        specialize (Hy z (proj1 Hz)). unfold dateLe in *. lia.
    + simpl. rewrite IH. destruct (p y) eqn:Py, (p x) eqn:Px; try reflexivity.
      simpl. unfold byEventDate at 2.
      destruct (Z.leb_spec (eventDate x - eventDate y) 0); [lia | reflexivity].
Qed.

(** Sorting commutes with filtering. *)
Lemma filter_sort (p : TicketRecord -> bool) (l : list TicketRecord) :
  filter p (sort byEventDate l) = sort byEventDate (filter p l).
Proof.
  induction l as [|x r IH]; [reflexivity |].
  simpl. rewrite filter_insert by apply sort_sorted.
  destruct (p x); simpl; now rewrite IH.
Qed.

(* ================================================================== *)
(** ** The three buckets *)
(* ================================================================== *)

Lemma in_upcoming (now : Z) (ts : list TicketRecord) (t : TicketRecord) :
  In t (upcomingTickets now ts)
  <-> In t ts /\ isUpcoming now (eventDate t) = true /\ used t = false.
Proof.
  unfold upcomingTickets. rewrite filter_In, andb_true_iff, negb_true_iff. tauto.
Qed.

Lemma in_used (ts : list TicketRecord) (t : TicketRecord) :
  In t (usedTickets ts) <-> In t ts /\ used t = true.
Proof. unfold usedTickets. now rewrite filter_In. Qed.

Lemma in_expired (now : Z) (ts : list TicketRecord) (t : TicketRecord) :
  In t (expiredTickets now ts)
  <-> In t ts /\ isUpcoming now (eventDate t) = false /\ used t = false.
Proof.
  unfold expiredTickets. rewrite filter_In, andb_true_iff, !negb_true_iff. tauto.
Qed.

Lemma buckets_perm (now : Z) (ts : list TicketRecord) :
  Permutation (upcomingTickets now ts ++ usedTickets ts ++ expiredTickets now ts) ts.
Proof.
  unfold upcomingTickets, usedTickets, expiredTickets.
  induction ts as [|t r IH]; simpl; [reflexivity |].
  destruct (used t), (isUpcoming now (eventDate t)); simpl.
  - rewrite <- Permutation_middle. now constructor.
  - rewrite <- Permutation_middle. now constructor.
  - now constructor.
  - rewrite app_assoc, <- Permutation_middle, <- app_assoc. now constructor.
Qed.

(** C5.  Whatever the resolved tickets and the current time: the three
    buckets together are a rearrangement of the resolved tickets
    (nothing left out, nothing repeated); every ticket is in exactly
    one bucket; and a used ticket is in Used and in no other bucket,
    also when its event date is in the future. *)
Theorem buckets_partition (now : Z) (ts : list TicketRecord) :
  Permutation (upcomingTickets now ts ++ usedTickets ts ++ expiredTickets now ts) ts
  /\ (forall t, In t ts ->
        (In t (upcomingTickets now ts)
           /\ ~ In t (usedTickets ts) /\ ~ In t (expiredTickets now ts))
        \/ (~ In t (upcomingTickets now ts)
              /\ In t (usedTickets ts) /\ ~ In t (expiredTickets now ts))
        \/ (~ In t (upcomingTickets now ts)
              /\ ~ In t (usedTickets ts) /\ In t (expiredTickets now ts)))
  /\ (forall t, In t ts -> used t = true -> now < eventDate t ->
        In t (usedTickets ts)
        /\ ~ In t (upcomingTickets now ts) /\ ~ In t (expiredTickets now ts)).
Proof.
  split; [apply buckets_perm | split]; intros t Ht.
  - rewrite in_upcoming, in_used, in_expired.
    destruct (used t), (isUpcoming now (eventDate t)); intuition discriminate.
  - intros Hu _. rewrite in_upcoming, in_used, in_expired.
    repeat split; try assumption; intros [_ [_ H']]; congruence.
Qed.

Lemma buckets_partition_witness :
  let t := mkRecord 8 7 "Rock Concert" 7000 true false (placeholderMetadata 8) in
  In t (usedTickets Demo.resolved)
  /\ ~ In t (upcomingTickets 4000 Demo.resolved)
  /\ ~ In t (expiredTickets 4000 Demo.resolved).
Proof.
  refine (proj2 (proj2 (buckets_partition 4000 Demo.resolved)) _ _ _ _).
  - simpl. tauto.
  - reflexivity.
  - simpl. lia.
Defined.

Example buckets_of_resolved :
  map tokenId (upcomingTickets 4000 (sort byEventDate Demo.resolved)) = [3; 2]
  /\ map tokenId (usedTickets (sort byEventDate Demo.resolved)) = [8]
  /\ map tokenId (expiredTickets 4000 (sort byEventDate Demo.resolved)) = [7].
Proof. repeat split. Qed.

(** Buckets cut from a list sorted by event date, for one clock
    reading: each is in non-decreasing order of event date and keeps,
    date by date, the order the list had before the sort. *)
Lemma buckets_of_sorted_list (now : Z) (l : list TicketRecord) :
  StronglySorted dateLe (upcomingTickets now (sort byEventDate l))
  /\ StronglySorted dateLe (usedTickets (sort byEventDate l))
  /\ StronglySorted dateLe (expiredTickets now (sort byEventDate l))
  /\ (forall d,
        datedAt d (upcomingTickets now (sort byEventDate l))
          = datedAt d (upcomingTickets now l)
        /\ datedAt d (usedTickets (sort byEventDate l))
           = datedAt d (usedTickets l)
        /\ datedAt d (expiredTickets now (sort byEventDate l))
           = datedAt d (expiredTickets now l)).
Proof.
  unfold upcomingTickets, usedTickets, expiredTickets, datedAt.
  repeat split; try (apply filter_StronglySorted, sort_sorted);
    rewrite filter_comm, (filter_comm _ _ l); f_equal; apply sort_stable.
Qed.

(* ================================================================== *)
(** ** The set of candidate tokens *)
(* ================================================================== *)

Lemma existsb_eqb_In (x : Z) (l : list Z) : existsb (Z.eqb x) l = true <-> In x l.
Proof.
  rewrite existsb_exists. split.
  - intros [y [Hy E]]. apply Z.eqb_eq in E. now subst.
  - intros H. exists x. split; [exact H | apply Z.eqb_refl].
Qed.

Lemma setAdd_In (acc : list Z) (x y : Z) :
  In y (setAdd acc x) <-> In y acc \/ y = x.
Proof.
  unfold setAdd. destruct (existsb (Z.eqb x) acc) eqn:E.
  - apply existsb_eqb_In in E. split; [tauto | intros [H | ->]; assumption].
  - rewrite in_app_iff. simpl. intuition.
Qed.

Lemma setAdd_NoDup (acc : list Z) (x : Z) : NoDup acc -> NoDup (setAdd acc x).
Proof.
  intros H. unfold setAdd. destruct (existsb (Z.eqb x) acc) eqn:E; [exact H |].
  apply NoDup_app; [exact H | repeat constructor; auto |].
  intros y Hy [<- | []].
  apply existsb_eqb_In in Hy. congruence.
Qed.

Lemma fold_setAdd (l acc : list Z) :
  NoDup acc ->
  NoDup (fold_left setAdd l acc)
  /\ (forall y, In y (fold_left setAdd l acc) <-> In y acc \/ In y l).
Proof.
  revert acc; induction l as [|x r IH]; intros acc H; simpl.
  - split; [exact H | intros y; tauto].
  - destruct (IH (setAdd acc x) (setAdd_NoDup acc x H)) as [Hn Hi].
    split; [exact Hn |].
    intros y. rewrite Hi, setAdd_In. intuition.
Qed.

Lemma spreadSet_NoDup (l : list Z) : NoDup (spreadSet l).
Proof. apply fold_setAdd. constructor. Qed.

Lemma spreadSet_In (l : list Z) (y : Z) : In y (spreadSet l) <-> In y l.
Proof.
  unfold spreadSet. destruct (fold_setAdd l [] (NoDup_nil Z)) as [_ H].
  rewrite H. simpl. tauto.
Qed.

Example spreadSet_first_occurrence : spreadSet [3; 7; 9; 3; 7] = [3; 7; 9].
Proof. reflexivity. Qed.

(* ================================================================== *)
(** ** One resolution pass *)
(* ================================================================== *)

Ltac run_monad :=
  unfold processToken, fetchMetadata, sortUserTickets, push, tryCatch, bind,
    await, ret, consoleError, setTickets, setLoading, setError,
    setUserTickets, getUserTickets; simpl.

(** The metadata fetch never throws. *)
Lemma fetchMetadata_total (w : World) (k : Z) (uri : Val) (s : St) :
  exists m, fst (fetchMetadata w k uri s) = Ok m.
Proof.
  run_monad.
  destruct (ipfsToHttp w uri) as [url|]; [|eexists; reflexivity].
  destruct (fetch w k url) as [resp|]; [|eexists; reflexivity].
  destruct (json w resp); eexists; reflexivity.
Qed.

Lemma fetchMetadata_fails (w : World) (k : Z) (uri : Val) (s : St) :
  metadataFetchFails w k uri ->
  fst (fetchMetadata w k uri s) = Ok (placeholderMetadata k)
  /\ userTickets (snd (fetchMetadata w k uri s)) = userTickets s.
Proof.
  intros [[e H] | [[url [e [H1 H2]]] | [url [resp [e [H1 [H2 H3]]]]]]];
    run_monad; rewrite ?H, ?H1, ?H2, ?H3; simpl; auto.
Qed.

(** The loop body never throws; it appends to [userTickets] and to the
    console and leaves the rest of the state alone. *)
Lemma processToken_frame (w : World) (account : string) (k : Z) (s : St) :
  processToken w account k s
  = (Ok tt, mkSt (tickets s) (loading s) (error s)
                 (userTickets s ++ contribution w account k)
                 (console s ++ diagnostics w account k)).
Proof.
  unfold contribution, diagnostics. run_monad.
  destruct (ownerOf w k) as [o|]; simpl; [|now rewrite app_nil_r].
  destruct (toLowerCase o =? toLowerCase account)%string; simpl;
    [|destruct s; simpl; now rewrite !app_nil_r].
  destruct (getTicket w k) as [t|]; simpl; [|now rewrite app_nil_r].
  destruct (getEvent w k (tk_eventId t)) as [ev|]; simpl; [|now rewrite app_nil_r].
  destruct (getTokenURI w k) as [uri|]; simpl; [|now rewrite app_nil_r].
  destruct (ipfsToHttp w uri) as [url|]; simpl; [|reflexivity].
  destruct (fetch w k url) as [resp|]; simpl; [|reflexivity].
  destruct (json w resp); simpl; [now rewrite app_nil_r | reflexivity].
Qed.

Lemma forOf_frame (w : World) (account : string) (ids : list Z) (s : St) :
  forOf ids (processToken w account) s
  = (Ok tt, mkSt (tickets s) (loading s) (error s)
                 (userTickets s ++ flat_map (contribution w account) ids)
                 (console s ++ flat_map (diagnostics w account) ids)).
Proof.
  revert s; induction ids as [|k r IH]; intros s; simpl.
  - unfold ret. destruct s; simpl. now rewrite !app_nil_r.
  - unfold bind. rewrite processToken_frame, IH. simpl.
    now rewrite <- !app_assoc.
Qed.

(** A pass whose contract lookup and log query succeed. *)
Lemma fetchUserTickets_ok (w : World) (account : string)
      (events : list TransferEvent) (s : St) :
  getContract w = Ok tt -> queryFilter w account = Ok events ->
  let ids := spreadSet (map tr_tokenId events) in
  let sorted := sort byEventDate (flat_map (contribution w account) ids) in
  fetchUserTickets w account s
  = (Ok tt, mkSt sorted false (error s) sorted
                 (console s ++ flat_map (diagnostics w account) ids)).
Proof.
  intros Hc Hq ids sorted. unfold fetchUserTickets.
  unfold tryCatch, bind, await. rewrite Hc, Hq. simpl.
  fold ids. rewrite forOf_frame. reflexivity.
Qed.

(** A pass whose contract lookup or log query fails. *)
Lemma fetchUserTickets_abort (w : World) (account : string) (e : Exn) (s : St) :
  getContract w = Throw e
  \/ (getContract w = Ok tt /\ queryFilter w account = Throw e) ->
  fetchUserTickets w account s
  = (Ok tt, mkSt (tickets s) false
                 (Some "Failed to load your tickets. Please try again later.")
                 (userTickets s)
                 (console s ++ [ConsoleError "Error fetching user tickets:" e])).
Proof.
  intros [H | [H1 H2]]; unfold fetchUserTickets; run_monad;
    rewrite ?H, ?H1, ?H2; reflexivity.
Qed.

(* ================================================================== *)
(** ** What one token contributes *)
(* ================================================================== *)

Lemma sameAddress_eqb (o account : string) :
  (toLowerCase o =? toLowerCase account)%string = true <-> sameAddress o account.
Proof. apply String.eqb_eq. Qed.

Lemma contribution_not_owner (w : World) (account : string) (k : Z) (o : string) :
  ownerOf w k = Ok o -> ~ sameAddress o account -> contribution w account k = [].
Proof.
  intros Ho Hne. unfold contribution. run_monad. rewrite Ho.
  destruct (toLowerCase o =? toLowerCase account)%string eqn:E; [|reflexivity].
  apply sameAddress_eqb in E. contradiction.
Qed.

Lemma contribution_lookupFails (w : World) (account : string) (k : Z) :
  lookupFails w account k -> contribution w account k = [].
Proof.
  unfold contribution.
  intros [[e H] | [[o [e [Ho [Hs Ht]]]] | [o [t [e [Ho [Hs [Ht He]]]]]]]];
    run_monad; rewrite ?H, ?Ho; simpl; try reflexivity;
    apply sameAddress_eqb in Hs; rewrite Hs; simpl; rewrite Ht; simpl;
    rewrite ?He; reflexivity.
Qed.

Lemma contribution_record (w : World) (account : string) (k : Z)
      (o : string) (t : Ticket) (ev : EventInfo) (uri : Val) :
  ownerOf w k = Ok o -> sameAddress o account ->
  getTicket w k = Ok t -> getEvent w k (tk_eventId t) = Ok ev ->
  getTokenURI w k = Ok uri ->
  exists md,
    contribution w account k
    = [mkRecord k (tk_eventId t) (evt_name ev) (evt_date ev)
                (tk_used t) (tk_locked t) md]
    /\ (metadataFetchFails w k uri -> md = placeholderMetadata k).
Proof.
  intros Ho Hs Ht He Hu. apply sameAddress_eqb in Hs.
  unfold contribution. run_monad. rewrite Ho; simpl. rewrite Hs; simpl.
  rewrite Ht; simpl. rewrite He; simpl. rewrite Hu; simpl.
  destruct (ipfsToHttp w uri) as [url|e1] eqn:E1; simpl.
  - destruct (fetch w k url) as [resp|e2] eqn:E2; simpl.
    + destruct (json w resp) as [m|e3] eqn:E3; simpl.
      * exists m. split; [reflexivity |].
        intros [[e H] | [[url' [e [H1 H2]]] | [url' [resp' [e [H1 [H2 H3]]]]]]];
          congruence.
      * eexists. split; reflexivity.
    + eexists. split; reflexivity.
  - eexists. split; reflexivity.
Qed.

(** A token contributes at most one record, and that record is its
    own. *)
Lemma contribution_shape (w : World) (account : string) (k : Z) :
  contribution w account k = []
  \/ exists r, contribution w account k = [r] /\ tokenId r = k.
Proof.
  destruct (ownerOf w k) as [o|e] eqn:Ho.
  - destruct (toLowerCase o =? toLowerCase account)%string eqn:Hs.
    + apply sameAddress_eqb in Hs.
      destruct (getTicket w k) as [t|e] eqn:Ht.
      * destruct (getEvent w k (tk_eventId t)) as [ev|e] eqn:He.
        -- destruct (getTokenURI w k) as [uri|e] eqn:Hu.
           ++ destruct (contribution_record w account k o t ev uri Ho Hs Ht He Hu)
                as [md [H _]].
              right. eexists. split; [exact H | reflexivity].
           ++ left. unfold contribution. run_monad. apply sameAddress_eqb in Hs.
              rewrite Ho; simpl. rewrite Hs; simpl. rewrite Ht; simpl.
              rewrite He; simpl. rewrite Hu. reflexivity.
        -- left. apply contribution_lookupFails. right; right.
           exists o, t, e. auto.
      * left. apply contribution_lookupFails. right; left. exists o, e. auto.
    + left. apply (contribution_not_owner w account k o Ho).
      intros H. apply sameAddress_eqb in H. congruence.
  - left. apply contribution_lookupFails. left. now exists e.
Qed.

Lemma contribution_tokenId (w : World) (account : string) (k : Z) (r : TicketRecord) :
  In r (contribution w account k) -> tokenId r = k.
Proof.
  destruct (contribution_shape w account k) as [-> | [r' [-> H]]].
  - intros [].
  - intros [<- | []]. exact H.
Qed.

Lemma withoutToken_contribution_same (w : World) (account : string) (k : Z) :
  withoutToken k (contribution w account k) = [].
Proof.
  destruct (contribution_shape w account k) as [-> | [r [-> H]]]; [reflexivity |].
  unfold withoutToken; simpl. now rewrite H, Z.eqb_refl.
Qed.

Lemma withoutToken_contribution_other (w : World) (account : string) (j k : Z) :
  j <> k -> withoutToken k (contribution w account j) = contribution w account j.
Proof.
  intros Hjk.
  destruct (contribution_shape w account j) as [-> | [r [-> H]]]; [reflexivity |].
  unfold withoutToken; simpl. rewrite H.
  destruct (Z.eqb_spec j k); [contradiction | reflexivity].
Qed.

(** The calls made for another token do not see the difference between
    two worlds that agree outside token [k]. *)
Lemma processToken_agree (w w' : World) (account : string) (j k : Z) (s : St) :
  agreeExcept k w w' -> j <> k ->
  processToken w' account j s = processToken w account j s.
Proof.
  intros [_ [_ [Hi [Hj H]]]] Hjk.
  destruct (H j Hjk) as [Ho [Ht [He [Hu Hf]]]].
  run_monad. rewrite Ho.
  destruct (ownerOf w j) as [o|]; simpl; [|reflexivity].
  destruct (toLowerCase o =? toLowerCase account)%string; simpl; [|reflexivity].
  rewrite Ht. destruct (getTicket w j) as [t|]; simpl; [|reflexivity].
  rewrite He. destruct (getEvent w j (tk_eventId t)) as [ev|]; simpl; [|reflexivity].
  rewrite Hu. destruct (getTokenURI w j) as [uri|]; simpl; [|reflexivity].
  rewrite Hi. destruct (ipfsToHttp w uri) as [url|]; simpl; [|reflexivity].
  rewrite Hf. destruct (fetch w j url) as [resp|]; simpl; [|reflexivity].
  rewrite Hj. reflexivity.
Qed.

Lemma contributions_without (w w' : World) (account : string) (k : Z) (ids : list Z) :
  agreeExcept k w w' -> lookupFails w' account k ->
  flat_map (contribution w' account) ids
  = withoutToken k (flat_map (contribution w account) ids).
Proof.
  intros Ha Hf. induction ids as [|j r IH]; [reflexivity |].
  simpl. unfold withoutToken in *. rewrite filter_app, <- IH. f_equal.
  destruct (Z.eq_dec j k) as [-> | Hjk].
  - fold (withoutToken k (contribution w account k)).
    now rewrite withoutToken_contribution_same, contribution_lookupFails.
  - fold (withoutToken k (contribution w account j)).
    rewrite withoutToken_contribution_other by exact Hjk.
    unfold contribution. now rewrite (processToken_agree w w' account j k).
Qed.

Lemma tokens_of_contributions (w : World) (account : string) (ids : list Z) :
  (forall k, In k ids ->
     exists t ev uri, getTicket w k = Ok t
                      /\ getEvent w k (tk_eventId t) = Ok ev
                      /\ getTokenURI w k = Ok uri) ->
  map tokenId (flat_map (contribution w account) ids)
  = filter (ownedBy w account) ids.
Proof.
  induction ids as [|k r IH]; intros H; [reflexivity |].
  simpl. rewrite map_app, IH by (intros j Hj; apply H; now right).
  unfold ownedBy at 2.
  destruct (ownerOf w k) as [o|e] eqn:Ho.
  - destruct (toLowerCase o =? toLowerCase account)%string eqn:Hs.
    + destruct (H k (or_introl eq_refl)) as [t [ev [uri [Ht [He Hu]]]]].
      apply sameAddress_eqb in Hs.
      destruct (contribution_record w account k o t ev uri Ho Hs Ht He Hu)
        as [md [-> _]].
      reflexivity.
    + rewrite (contribution_not_owner w account k o Ho); [reflexivity |].
      intros E. apply sameAddress_eqb in E. congruence.
  - rewrite contribution_lookupFails; [reflexivity |]. left. now exists e.
Qed.

Lemma ownedBy_iff (w : World) (account : string) (k : Z) :
  ownedBy w account k = true
  <-> exists o, ownerOf w k = Ok o /\ sameAddress o account.
Proof.
  unfold ownedBy. destruct (ownerOf w k) as [o|e].
  - rewrite sameAddress_eqb. split.
    + intros H. now exists o.
    + intros [o' [E H]]. now injection E as ->.
  - split; [discriminate | intros [o [E _]]; discriminate].
Qed.

(* ================================================================== *)
(** ** Properties of the resolution pass *)
(* ================================================================== *)

Example demo_pass :
  let s := snd (fetchUserTickets Demo.world Demo.account initialSt) in
  map tokenId (tickets s) = [7; 3]
  /\ map metadata (tickets s)
     = [ mkMetadata (Str "Ticket #7") (Str "Metadata unavailable") (Str "");
         mkMetadata (Str "Front row") (Str "Seat 12") Undefined ]
  /\ loading s = false /\ error s = None.
Proof. vm_compute. repeat split. Qed.

Example placeholder_5 :
  placeholderMetadata 5
  = mkMetadata (Str "Ticket #5") (Str "Metadata unavailable") (Str "").
Proof. reflexivity. Qed.

(** C6.  When the ownership, ticket, event and URI lookups of a
    candidate token [k] succeed and its metadata fetch fails (at the URI
    translation, at the request or at the parsing of the body), the
    metadata step itself returns the placeholder
    [{name: "Ticket #k", description: "Metadata unavailable", image: ""}],
    the pass completes, and the resolved set holds the record of [k]
    with exactly that metadata, and no other record for [k]. *)
Theorem metadata_failure_placeholder
        (w : World) (account : string) (events : list TransferEvent) (s : St)
        (k : Z) (o : string) (t : Ticket) (ev : EventInfo) (uri : Val) :
  getContract w = Ok tt -> queryFilter w account = Ok events ->
  In k (map tr_tokenId events) ->
  ownerOf w k = Ok o -> sameAddress o account ->
  getTicket w k = Ok t -> getEvent w k (tk_eventId t) = Ok ev ->
  getTokenURI w k = Ok uri ->
  metadataFetchFails w k uri ->
  let record := mkRecord k (tk_eventId t) (evt_name ev) (evt_date ev)
                         (tk_used t) (tk_locked t)
                         (mkMetadata (Str ("Ticket #" ++ numToString k))
                                     (Str "Metadata unavailable") (Str "")) in
  (forall s0, fst (fetchMetadata w k uri s0) = Ok (metadata record))
  /\ fst (fetchUserTickets w account s) = Ok tt
  /\ error (snd (fetchUserTickets w account s)) = error s
  /\ In record (tickets (snd (fetchUserTickets w account s)))
  /\ (forall r, In r (tickets (snd (fetchUserTickets w account s))) ->
                tokenId r = k -> r = record).
Proof.
  intros Hc Hq Hk Ho Hs Ht He Hu Hf record.
  rewrite (fetchUserTickets_ok w account events s Hc Hq). simpl.
  destruct (contribution_record w account k o t ev uri Ho Hs Ht He Hu)
    as [md [Hrec Hmd]].
  rewrite (Hmd Hf) in Hrec. fold record in Hrec.
  split; [intros s0; apply (fetchMetadata_fails w k uri s0 Hf) |].
  repeat split.
  - apply (Permutation_in _ (Permutation_sym (sort_perm byEventDate _))).
    apply in_flat_map. exists k. split; [now apply spreadSet_In |].
    rewrite Hrec. now left.
  - intros r Hr Hid.
    apply (Permutation_in _ (sort_perm byEventDate _)) in Hr.
    apply in_flat_map in Hr. destruct Hr as [j [_ Hr]].
    pose proof (contribution_tokenId w account j r Hr) as Hj.
    assert (Hjk : j = k) by congruence.
    rewrite Hjk, Hrec in Hr. destruct Hr as [<- | []]. reflexivity.
Qed.

Lemma metadata_failure_placeholder_witness :
  In (mkRecord 7 3 "Cultural Night" 3000 true false
               (mkMetadata (Str "Ticket #7") (Str "Metadata unavailable") (Str "")))
     (tickets (snd (fetchUserTickets Demo.world Demo.account initialSt))).
Proof.
  refine (proj1 (proj2 (proj2 (proj2
            (metadata_failure_placeholder Demo.world Demo.account
               [ mkTransfer "0x00" "0xabcdef01" 3;
                 mkTransfer "0x11" "0xabcdef01" 7;
                 mkTransfer "0x22" "0xabcdef01" 9;
                 mkTransfer "0x33" "0xabcdef01" 3 ]
               initialSt 7 "0xABCDEF01" (mkTicket 3 true false)
               (mkEventInfo "Cultural Night" 3000) (Str "ipfs://token-7")
               _ _ _ _ _ _ _ _ _))))).
  - reflexivity.
  - reflexivity.
  - simpl. tauto.
  - reflexivity.
  - reflexivity.
  - reflexivity.
  - reflexivity.
  - reflexivity.
  - right; left. eexists; eexists. split; reflexivity.
Defined.

(** C7.  When the log query succeeds and the ticket, event and URI
    lookups succeed for every token of the log, the pass completes and
    the resolved set holds exactly one record per token that occurs in
    the log and whose current owner is the queried address up to case:
    no token id occurs twice, and a token whose owner differs is
    absent. *)
Theorem resolved_tokens_exact
        (w : World) (account : string) (events : list TransferEvent) (s : St) :
  getContract w = Ok tt -> queryFilter w account = Ok events ->
  (forall k, In k (map tr_tokenId events) ->
     exists t ev uri, getTicket w k = Ok t
                      /\ getEvent w k (tk_eventId t) = Ok ev
                      /\ getTokenURI w k = Ok uri) ->
  fst (fetchUserTickets w account s) = Ok tt
  /\ error (snd (fetchUserTickets w account s)) = error s
  /\ NoDup (map tokenId (tickets (snd (fetchUserTickets w account s))))
  /\ (forall k,
        In k (map tokenId (tickets (snd (fetchUserTickets w account s))))
        <-> In k (map tr_tokenId events)
            /\ exists o, ownerOf w k = Ok o /\ sameAddress o account)
  /\ (forall k o, ownerOf w k = Ok o -> ~ sameAddress o account ->
        ~ In k (map tokenId (tickets (snd (fetchUserTickets w account s))))).
Proof.
  intros Hc Hq Hl.
  rewrite (fetchUserTickets_ok w account events s Hc Hq). simpl.
  set (ids := spreadSet (map tr_tokenId events)).
  assert (Hp : Permutation
                 (map tokenId (sort byEventDate (flat_map (contribution w account) ids)))
                 (filter (ownedBy w account) ids)).
  { rewrite <- tokens_of_contributions.
    - apply Permutation_map, sort_perm.
    - intros k Hk. apply Hl. now apply spreadSet_In. }
  assert (Hin : forall k,
             In k (map tokenId (sort byEventDate (flat_map (contribution w account) ids)))
             <-> In k (map tr_tokenId events)
                 /\ exists o, ownerOf w k = Ok o /\ sameAddress o account).
  { intros k. rewrite <- ownedBy_iff, <- (spreadSet_In (map tr_tokenId events) k).
    fold ids. rewrite <- filter_In. split; apply Permutation_in;
      [exact Hp | apply Permutation_sym, Hp]. }
  split; [reflexivity | split; [reflexivity | split; [| split]]].
  - apply (Permutation_NoDup (Permutation_sym Hp)).
    apply NoDup_filter, spreadSet_NoDup.
  - exact Hin.
  - intros k o Ho Hne Hk. apply Hin in Hk.
    destruct Hk as [_ [o' [Ho' Hs]]]. congruence.
Qed.

Lemma resolved_tokens_exact_witness :
  NoDup (map tokenId (tickets (snd (fetchUserTickets Demo.world Demo.account initialSt)))).
Proof.
  refine (proj1 (proj2 (proj2
            (resolved_tokens_exact Demo.world Demo.account
               [ mkTransfer "0x00" "0xabcdef01" 3;
                 mkTransfer "0x11" "0xabcdef01" 7;
                 mkTransfer "0x22" "0xabcdef01" 9;
                 mkTransfer "0x33" "0xabcdef01" 3 ]
               initialSt _ _ _)))).
  - reflexivity.
  - reflexivity.
  - intros k _. simpl. eexists; eexists; eexists. repeat split.
Defined.

(** C8.  Take a pass whose log query succeeds, and let the ownership
    check, the ticket fetch or the event fetch of token [k] fail while
    every other call answers as before.  Then the pass still completes
    without an error state, its resolved set is the former one without
    the record of [k], and the processing of every other token is the
    same step as before. *)
Theorem lookup_failure_isolated
        (w w' : World) (account : string) (events : list TransferEvent)
        (s : St) (k : Z) :
  getContract w = Ok tt -> queryFilter w account = Ok events ->
  agreeExcept k w w' -> lookupFails w' account k ->
  fst (fetchUserTickets w' account s) = Ok tt
  /\ error (snd (fetchUserTickets w' account s)) = error s
  /\ loading (snd (fetchUserTickets w' account s)) = false
  /\ tickets (snd (fetchUserTickets w' account s))
     = withoutToken k (tickets (snd (fetchUserTickets w account s)))
  /\ (forall j st, j <> k ->
        processToken w' account j st = processToken w account j st).
Proof.
  intros Hc Hq Ha Hf.
  assert (Hc' : getContract w' = Ok tt) by (destruct Ha as [-> _]; exact Hc).
  assert (Hq' : queryFilter w' account = Ok events)
    by (destruct Ha as [_ [-> _]]; exact Hq).
  rewrite (fetchUserTickets_ok w account events s Hc Hq).
  rewrite (fetchUserTickets_ok w' account events s Hc' Hq'). simpl.
  repeat split.
  - rewrite (contributions_without w w' account k _ Ha Hf).
    unfold withoutToken. now rewrite filter_sort.
  - intros j st Hjk. now apply (processToken_agree w w' account j k).
Qed.

Lemma lookup_failure_isolated_witness :
  tickets (snd (fetchUserTickets Demo.worldWithout3 Demo.account initialSt))
  = withoutToken 3 (tickets (snd (fetchUserTickets Demo.world Demo.account initialSt))).
Proof.
  refine (proj1 (proj2 (proj2 (proj2
            (lookup_failure_isolated Demo.world Demo.worldWithout3 Demo.account
               [ mkTransfer "0x00" "0xabcdef01" 3;
                 mkTransfer "0x11" "0xabcdef01" 7;
                 mkTransfer "0x22" "0xabcdef01" 9;
                 mkTransfer "0x33" "0xabcdef01" 3 ]
               initialSt 3 _ _ _ _))))).
  - reflexivity.
  - reflexivity.
  - unfold agreeExcept. simpl. repeat split.
    destruct (Z.eqb_spec j 3); [contradiction | reflexivity].
  - left. eexists. reflexivity.
Defined.

Example demo_pass_without_3 :
  map tokenId (tickets (snd (fetchUserTickets Demo.worldWithout3 Demo.account initialSt)))
  = [7].
Proof. vm_compute. reflexivity. Qed.

Lemma filterAt_In (clock : Clock) (test : Z -> TicketRecord -> bool)
      (ts : list TicketRecord) (i : nat) (t : TicketRecord) :
  In t (filterAt clock i test ts) -> In t ts.
Proof.
  revert i; induction ts as [|x r IH]; intros i; simpl; [tauto |].
  destruct (test (clock i) x); simpl; intros H.
  - destruct H as [H | H]; [now left | right; now apply (IH (S i))].
  - right. now apply (IH (S i)).
Qed.

Lemma filterAt_StronglySorted (clock : Clock) (test : Z -> TicketRecord -> bool)
      (ts : list TicketRecord) (i : nat) :
  StronglySorted dateLe ts -> StronglySorted dateLe (filterAt clock i test ts).
Proof.
  intros H. revert i. induction H as [|x r Hs IH Hx]; intros i; simpl; [constructor |].
  destruct (test (clock i) x); [|apply IH].
  constructor; [apply IH |].
  rewrite Forall_forall in *. intros y Hy. apply Hx. now apply filterAt_In in Hy.
Qed.

Lemma pushedBy_contributions (w : World) (account : string)
      (events : list TransferEvent) (s : St) :
  pushedBy w account events s
  = flat_map (contribution w account) (spreadSet (map tr_tokenId events)).
Proof. unfold pushedBy. now rewrite forOf_frame. Qed.

(** C9.  After a pass whose log query succeeded, the ticket list the
    pass stores is such that each of the three buckets cut from it is
    in non-decreasing order of event date, whatever the clock reads at
    each filter call; and the records of one date stand, in the list
    and (for one clock reading) in every bucket, in the order in which
    the loop pushed them. *)
Theorem buckets_sorted_stable
        (w : World) (account : string) (events : list TransferEvent) (s : St)
        (now : Z) :
  getContract w = Ok tt -> queryFilter w account = Ok events ->
  let ts := tickets (snd (fetchUserTickets w account s)) in
  let pushed := pushedBy w account events s in
  (StronglySorted dateLe (upcomingTickets now ts)
   /\ StronglySorted dateLe (usedTickets ts)
   /\ StronglySorted dateLe (expiredTickets now ts))
  /\ (forall d,
        datedAt d (upcomingTickets now ts) = datedAt d (upcomingTickets now pushed)
        /\ datedAt d (usedTickets ts) = datedAt d (usedTickets pushed)
        /\ datedAt d (expiredTickets now ts) = datedAt d (expiredTickets now pushed))
  /\ (forall d, datedAt d ts = datedAt d pushed)
  /\ (forall (clock : Clock) (i : nat),
        StronglySorted dateLe
          (filterAt clock i
             (fun now ticket => isUpcoming now (eventDate ticket) && negb (used ticket))
             ts)
        /\ StronglySorted dateLe
             (filterAt clock i
                (fun now ticket =>
                   negb (isUpcoming now (eventDate ticket)) && negb (used ticket))
                ts)).
Proof.
  intros Hc Hq ts pushed. subst ts pushed.
  rewrite (fetchUserTickets_ok w account events s Hc Hq), pushedBy_contributions.
  simpl tickets.
  set (l := flat_map (contribution w account) (spreadSet (map tr_tokenId events))).
  destruct (buckets_of_sorted_list now l) as [H1 [H2 [H3 H4]]].
  split; [auto |]. split; [exact H4 |]. split.
  - intros d. apply sort_stable.
  - intros clock i. split; apply filterAt_StronglySorted, sort_sorted.
Qed.

Lemma buckets_sorted_stable_witness :
  StronglySorted dateLe
    (upcomingTickets 4000
       (tickets (snd (fetchUserTickets Demo.world Demo.account initialSt)))).
Proof.
  refine (proj1 (proj1 (buckets_sorted_stable Demo.world Demo.account demoEvents
                          initialSt 4000 _ _))).
  - reflexivity.
  - reflexivity.
Defined.

(* ================================================================== *)
(** ** More on the two selectors *)
(* ================================================================== *)

Lemma residues_5 (n : Z) :
  n mod 5 = 0 \/ n mod 5 = 1 \/ n mod 5 = 2 \/ n mod 5 = 3 \/ n mod 5 = 4.
Proof. pose proof (Z.mod_pos_bound n 5 ltac:(lia)). lia. Qed.

Lemma remainder_negative (n : Z) :
  n < 0 -> n mod 5 <> 0 -> remainder n 5 < 0.
Proof.
  intros Hn Hm. unfold remainder.
  pose proof (Z.rem_nonpos n 5 ltac:(lia) ltac:(lia)).
  assert (Z.rem n 5 <> 0) by (rewrite Z.rem_mod_eq_0 by lia; exact Hm).
  lia.
Qed.

Lemma elementAt_negative (arr : list string) (i : Z) : i < 0 -> elementAt arr i = Undefined.
Proof.
  intros H. unfold elementAt. destruct (Z.ltb_spec i 0); [reflexivity | lia].
Qed.

(** The table the "cultural" rule selects. *)
Lemma fallback_textual_select (ev : Event) (ticketId : Val) :
  textual (ev_name ev) -> textual (ev_description ev) ->
  strictEq ticketId (Num 0) || strictEq ticketId (Str "0") = false ->
  getTicketFallbackImage (Some ev) ticketId
  = Ok (elementAt
          (if includes (toLowerCase (textOf (ev_name ev))) "cultural"
              || includes (toLowerCase (textOf (ev_description ev))) "cultural"
           then CULTURAL_TICKET_IMAGES else DEFAULT_TICKET_IMAGES)
          (remainder (numericId ticketId) 5)).
Proof.
  intros Hn Hd Hz. unfold getTicketFallbackImage. rewrite Hz. clear Hz.
  rewrite (isCulturalEvent_textual ev Hn Hd).
  destruct (_ || _); reflexivity.
Qed.

Lemma culturalEvent_iff (ev : Event) :
  includes (toLowerCase (textOf (ev_name ev))) "cultural"
  || includes (toLowerCase (textOf (ev_description ev))) "cultural" = true
  <-> culturalEvent ev.
Proof. unfold culturalEvent. now rewrite orb_true_iff, !cultural_iff. Qed.

(** X1.  For event ids that are non-negative integers the event
    selector returns the entry [id mod 5] of [DEFAULT_EVENT_IMAGES], a
    non-empty string, and two events get the same image exactly when
    their ids agree modulo 5. *)
Theorem event_fallback_by_id (stringToNumber : string -> option Z)
        (ev ev' : Event) (n m : Z) :
  ev_eventId ev = Num n -> ev_eventId ev' = Num m -> 0 <= n -> 0 <= m ->
  (exists img,
     nth_error DEFAULT_EVENT_IMAGES (Z.to_nat (n mod 5)) = Some img
     /\ img <> ""
     /\ getEventFallbackImage stringToNumber (Some ev) = Str img)
  /\ (getEventFallbackImage stringToNumber (Some ev)
      = getEventFallbackImage stringToNumber (Some ev')
      <-> n mod 5 = m mod 5).
Proof.
  intros En Em Hn Hm. unfold getEventFallbackImage. rewrite En, Em.
  cbv beta iota zeta delta [toNumber].
  change (lengthOf DEFAULT_EVENT_IMAGES) with 5.
  rewrite !remainder_mod by lia.
  split.
  - destruct (residues_5 n) as [H | [H | [H | [H | H]]]]; rewrite H;
      eexists; (split; [reflexivity | split; [discriminate | reflexivity]]).
  - destruct (residues_5 n) as [H | [H | [H | [H | H]]]];
      destruct (residues_5 m) as [H' | [H' | [H' | [H' | H']]]];
      rewrite H, H'; split; intros E; try reflexivity; try discriminate; lia.
Qed.

Lemma event_fallback_by_id_witness :
  getEventFallbackImage (fun _ => None) (Some (mkEvent (Num 7) (Str "a") Undefined))
  = getEventFallbackImage (fun _ => None) (Some (mkEvent (Num 12) (Str "b") Undefined))
  <-> 7 mod 5 = 12 mod 5.
Proof.
  refine (proj2 (event_fallback_by_id (fun _ => None)
            (mkEvent (Num 7) (Str "a") Undefined)
            (mkEvent (Num 12) (Str "b") Undefined) 7 12 _ _ _ _)).
  - reflexivity.
  - reflexivity.
  - lia.
  - lia.
Defined.

(** X2.  The event selector off the table: with no event it returns the
    first image; an event object without [eventId] gets [undefined],
    and so does a negative id that is not a multiple of 5; a [null] id
    counts as 0. *)
Theorem event_fallback_edges (stringToNumber : string -> option Z) (ev : Event) :
  getEventFallbackImage stringToNumber None
  = Str "https://cdn.pixabay.com/photo/2016/11/23/15/48/audience-1853662_1280.jpg"
  /\ (ev_eventId ev = Undefined ->
      getEventFallbackImage stringToNumber (Some ev) = Undefined)
  /\ (forall n, ev_eventId ev = Num n -> n < 0 -> n mod 5 <> 0 ->
      getEventFallbackImage stringToNumber (Some ev) = Undefined)
  /\ (ev_eventId ev = Null ->
      getEventFallbackImage stringToNumber (Some ev)
      = getEventFallbackImage stringToNumber None).
Proof.
  unfold getEventFallbackImage. repeat split.
  - intros ->. reflexivity.
  - intros n -> Hn Hm. cbv beta iota zeta delta [toNumber].
    apply elementAt_negative. now apply remainder_negative.
  - intros ->. reflexivity.
Qed.

Lemma event_fallback_edges_witness :
  getEventFallbackImage (fun _ => None) (Some (mkEvent (Num (-3)) Undefined Undefined))
  = Undefined.
Proof.
  refine (proj1 (proj2 (proj2 (event_fallback_edges (fun _ => None)
            (mkEvent (Num (-3)) Undefined Undefined)))) (-3) _ _ _).
  - reflexivity.
  - lia.
  - vm_compute. discriminate.
Defined.

(** X3.  A ticket id that is not a number and not the string "0" (the
    string "7", say, or a missing id) is treated as index 0: the ticket
    selector returns the first image of the table the "cultural" rule
    selects. *)
Theorem fallback_non_numeric_id (ev : Event) (ticketId : Val) :
  textual (ev_name ev) -> textual (ev_description ev) ->
  ticketId <> Str "0" -> (forall n, ticketId <> Num n) ->
  (culturalEvent ev ->
   getTicketFallbackImage (Some ev) ticketId
   = Ok (Str "https://img.freepik.com/free-photo/traditional-cultural-dance-performance-stage_53876-138776.jpg"))
  /\ (~ culturalEvent ev ->
      getTicketFallbackImage (Some ev) ticketId
      = Ok (Str "https://img.freepik.com/free-vector/realistic-concert-entrance-tickets-set_1017-30605.jpg")).
Proof.
  intros Hn Hd H0 Hnum.
  assert (Hz : strictEq ticketId (Num 0) || strictEq ticketId (Str "0") = false).
  { destruct ticketId as [| |b|n|s]; simpl; try reflexivity.
    - exfalso. now apply (Hnum n).
    - destruct (String.eqb_spec s "0"); [subst; contradiction | reflexivity]. }
  assert (Hid : numericId ticketId = 0).
  { destruct ticketId as [| |b|n|s]; try reflexivity. exfalso. now apply (Hnum n). }
  rewrite (fallback_textual_select ev ticketId Hn Hd Hz), Hid. clear Hz.
  rewrite <- culturalEvent_iff.
  destruct (_ || _); split; intros H; try reflexivity; try discriminate.
  exfalso. now apply H.
Qed.

Lemma fallback_non_numeric_id_witness :
  getTicketFallbackImage (Some (mkEvent (Num 1) (Str "Rock Concert") Undefined)) (Str "7")
  = Ok (Str "https://img.freepik.com/free-vector/realistic-concert-entrance-tickets-set_1017-30605.jpg").
Proof.
  refine (proj2 (fallback_non_numeric_id
            (mkEvent (Num 1) (Str "Rock Concert") Undefined) (Str "7") _ _ _ _) _).
  - simpl. exact I.
  - simpl. exact I.
  - discriminate.
  - discriminate.
  - intros [H | H]; apply cultural_iff in H; vm_compute in H; discriminate.
Defined.

Lemma guardedCultural_cases (v : Val) :
  (notText v = true /\ exists e, guardedCultural v = Throw e)
  \/ (notText v = false
      /\ guardedCultural v = Ok (includes (toLowerCase (textOf v)) "cultural")).
Proof.
  destruct v as [| |b|n|s]; unfold notText, guardedCultural; simpl.
  - right. split; reflexivity.
  - right. split; reflexivity.
  - destruct b; [left | right]; split; try reflexivity. eexists; reflexivity.
  - destruct (n =? 0); [right | left]; split; try reflexivity. eexists; reflexivity.
  - right. split; [apply andb_false_r |]. destruct s; reflexivity.
Qed.

(** X4.  The ticket selector throws exactly when the ticket is not
    ticket 0 and the test of the "cultural" rule reaches a field that is
    truthy but not a string: the name, or the description once the name
    has not matched. *)
Theorem fallback_throws_iff (ev : Event) (ticketId : Val) :
  (exists e, getTicketFallbackImage (Some ev) ticketId = Throw e)
  <-> strictEq ticketId (Num 0) || strictEq ticketId (Str "0") = false
      /\ (notText (ev_name ev) = true
          \/ (~ containsIgnoreCase (textOf (ev_name ev)) "cultural"
              /\ notText (ev_description ev) = true)).
Proof.
  unfold getTicketFallbackImage.
  destruct (strictEq ticketId (Num 0) || strictEq ticketId (Str "0")).
  { split; [intros [e H]; discriminate | intros [H _]; discriminate]. }
  unfold isCulturalEvent.
  destruct (guardedCultural_cases (ev_name ev)) as [[Hb [e He]] | [Hb He]];
    rewrite He, Hb.
  { split; [intros _; split; [reflexivity | now left] | intros _; now exists e]. }
  destruct (includes (toLowerCase (textOf (ev_name ev))) "cultural") eqn:Ec.
  { apply cultural_iff in Ec.
    split; [intros [e H]; discriminate |].
    intros [_ [H | [H _]]]; [discriminate | contradiction]. }
  apply cultural_false_iff in Ec.
  destruct (guardedCultural_cases (ev_description ev)) as [[Hd [e He']] | [Hd He']];
    rewrite He', Hd.
  - split; [intros _; split; [reflexivity | right; now split]
           | intros _; now exists e].
  - split.
    + intros [e H]. destruct (includes _ _); discriminate.
    + intros [_ [H | [_ H]]]; discriminate.
Qed.

Lemma fallback_throws_iff_witness :
  exists e,
    getTicketFallbackImage (Some (mkEvent (Num 1) (Num 42) (Str "Cultural"))) (Num 3)
    = Throw e.
Proof.
  apply (proj2 (fallback_throws_iff (mkEvent (Num 1) (Num 42) (Str "Cultural")) (Num 3))).
  split; [reflexivity | left; reflexivity].
Defined.

(** X5.  A negative ticket id that is not a multiple of 5 indexes in
    front of the table: on an event with textual fields the ticket
    selector returns [undefined], not an image. *)
Theorem fallback_negative_id (ev : Event) (n : Z) :
  textual (ev_name ev) -> textual (ev_description ev) ->
  n < 0 -> n mod 5 <> 0 ->
  getTicketFallbackImage (Some ev) (Num n) = Ok Undefined.
Proof.
  intros Hn Hd Hneg Hm.
  rewrite (fallback_textual_select ev (Num n) Hn Hd) by (apply nonzero_id; lia).
  simpl numericId. now rewrite elementAt_negative by (now apply remainder_negative).
Qed.

Lemma fallback_negative_id_witness :
  getTicketFallbackImage (Some (mkEvent (Num 1) (Str "Rock Concert") Undefined))
                         (Num (-3))
  = Ok Undefined.
Proof.
  refine (fallback_negative_id (mkEvent (Num 1) (Str "Rock Concert") Undefined)
                               (-3) _ _ _ _).
  - simpl. exact I.
  - simpl. exact I.
  - lia.
  - vm_compute. discriminate.
Defined.

Lemma default_not_cultural (i : Z) (img : string) :
  nth_error DEFAULT_TICKET_IMAGES (Z.to_nat i) = Some img ->
  ~ In img CULTURAL_TICKET_IMAGES.
Proof.
  intros H.
  destruct (Z.to_nat i) as [|[|[|[|[|k]]]]]; simpl in H;
    try (destruct k; discriminate); injection H as <-;
    simpl; intros [E | [E | [E | [E | [E | []]]]]]; discriminate.
Qed.

Lemma fallback_cultural_image (ev : Event) (n : Z) :
  textual (ev_name ev) -> textual (ev_description ev) -> 0 <= n ->
  exists img,
    getTicketFallbackImage (Some ev) (Num n) = Ok (Str img)
    /\ (In img CULTURAL_TICKET_IMAGES <-> n = 0 \/ culturalEvent ev).
Proof.
  intros Hn Hd Hpos.
  destruct (Z.eq_dec n 0) as [-> | Hnz].
  { eexists. split; [reflexivity |]. split; [now left | intros _; simpl; now left]. }
  rewrite (fallback_textual_select ev (Num n) Hn Hd) by (apply nonzero_id; lia).
  simpl numericId. rewrite remainder_mod by lia.
  pose proof (culturalEvent_iff ev) as Hc.
  destruct (_ || _).
  - destruct (elementAt_in_range CULTURAL_TICKET_IMAGES (n mod 5)) as [img [Hi He]].
    { change (0 <= n mod 5 < 5). apply Z.mod_pos_bound; lia. }
    exists img. split; [now rewrite He |].
    split; [intros _; right; now apply Hc
           | intros _; now apply (nth_error_In _ _ Hi)].
  - destruct (elementAt_in_range DEFAULT_TICKET_IMAGES (n mod 5)) as [img [Hi He]].
    { change (0 <= n mod 5 < 5). apply Z.mod_pos_bound; lia. }
    exists img. split; [now rewrite He |].
    split.
    + intros Hin. exfalso. exact (default_not_cultural _ _ Hi Hin).
    + intros [H | H]; [contradiction | apply Hc in H; discriminate].
Qed.

(** X6.  On an event with textual fields and a non-negative ticket id,
    the ticket selector returns an image, and that image is one of
    [CULTURAL_TICKET_IMAGES] exactly when the ticket is ticket 0 or the
    event matches the "cultural" rule. *)
Theorem fallback_cultural_image_iff (ev : Event) (n : Z) :
  textual (ev_name ev) -> textual (ev_description ev) -> 0 <= n ->
  exists img,
    getTicketFallbackImage (Some ev) (Num n) = Ok (Str img)
    /\ (In img CULTURAL_TICKET_IMAGES <-> n = 0 \/ culturalEvent ev).
Proof. exact (fallback_cultural_image ev n). Qed.

Lemma fallback_cultural_image_iff_witness :
  exists img,
    getTicketFallbackImage
      (Some (mkEvent (Num 1) (Str "A CULTURAL night") Undefined)) (Num 7)
    = Ok (Str img)
    /\ (In img CULTURAL_TICKET_IMAGES
        <-> 7 = 0 \/ culturalEvent (mkEvent (Num 1) (Str "A CULTURAL night") Undefined)).
Proof.
  refine (fallback_cultural_image_iff
            (mkEvent (Num 1) (Str "A CULTURAL night") Undefined) 7 _ _ _).
  - simpl. exact I.
  - simpl. exact I.
  - lia.
Defined.

(* ================================================================== *)
(** ** More on the resolution pass *)
(* ================================================================== *)

Ltac token_run :=
  unfold contribution, diagnostics, processingError, metadataError;
  run_monad;
  repeat match goal with
         | H : _ = Ok _ |- _ => rewrite H; simpl
         | H : _ = Throw _ |- _ => rewrite H; simpl
         | H : (_ =? _)%string = _ |- _ => rewrite H; simpl
         end.

(** Every way the loop body can go for one token. *)
Lemma token_outcome (w : World) (account : string) (k : Z) :
  (exists o, ownerOf w k = Ok o /\ ~ sameAddress o account
             /\ contribution w account k = [] /\ diagnostics w account k = [])
  \/ (exists e, (lookupFails w account k \/ uriLookupFails w account k e)
                /\ contribution w account k = []
                /\ diagnostics w account k = [processingError k e])
  \/ (exists o t ev uri md,
        ownerOf w k = Ok o /\ sameAddress o account
        /\ getTicket w k = Ok t /\ getEvent w k (tk_eventId t) = Ok ev
        /\ getTokenURI w k = Ok uri
        /\ contribution w account k
           = [mkRecord k (tk_eventId t) (evt_name ev) (evt_date ev)
                       (tk_used t) (tk_locked t) md]
        /\ ((metadataFetchFails w k uri /\ md = placeholderMetadata k
             /\ exists e, diagnostics w account k = [metadataError k e])
            \/ (exists url resp,
                  ipfsToHttp w uri = Ok url /\ fetch w k url = Ok resp
                  /\ json w resp = Ok md /\ diagnostics w account k = []))).
Proof.
  destruct (ownerOf w k) as [o|e] eqn:Ho.
  2:{ right; left. exists e. split; [left; left; now exists e |].
      split; token_run; reflexivity. }
  destruct (toLowerCase o =? toLowerCase account)%string eqn:Hs.
  2:{ left. exists o. split; [reflexivity |]. split.
      - intros H. apply sameAddress_eqb in H. congruence.
      - split; token_run; reflexivity. }
  assert (Hs' : sameAddress o account) by now apply sameAddress_eqb.
  destruct (getTicket w k) as [t|e] eqn:Ht.
  2:{ right; left. exists e. split; [left; right; left; now exists o, e |].
      split; token_run; reflexivity. }
  destruct (getEvent w k (tk_eventId t)) as [ev|e] eqn:He.
  2:{ right; left. exists e. split; [left; right; right; now exists o, t, e |].
      split; token_run; reflexivity. }
  destruct (getTokenURI w k) as [uri|e] eqn:Hu.
  2:{ right; left. exists e. split; [right; now exists o, t, ev |].
      split; token_run; reflexivity. }
  right; right.
  destruct (ipfsToHttp w uri) as [url|e] eqn:Hi.
  2:{ exists o, t, ev, uri, (placeholderMetadata k).
      repeat (split; [first [reflexivity | assumption | token_run; reflexivity] |]).
      left. split; [left; now exists e |]. split; [reflexivity |].
      exists e. token_run. reflexivity. }
  destruct (fetch w k url) as [resp|e] eqn:Hf.
  2:{ exists o, t, ev, uri, (placeholderMetadata k).
      repeat (split; [first [reflexivity | assumption | token_run; reflexivity] |]).
      left. split; [right; left; now exists url, e |]. split; [reflexivity |].
      exists e. token_run. reflexivity. }
  destruct (json w resp) as [m|e] eqn:Hj.
  2:{ exists o, t, ev, uri, (placeholderMetadata k).
      repeat (split; [first [reflexivity | assumption | token_run; reflexivity] |]).
      left. split; [right; right; now exists url, resp, e |]. split; [reflexivity |].
      exists e. token_run. reflexivity. }
  exists o, t, ev, uri, m.
  repeat (split; [first [reflexivity | assumption | token_run; reflexivity] |]).
  right. exists url, resp. repeat split; try assumption. token_run. reflexivity.
Qed.

(** The records a token contributes carry the ledger's answers. *)
Lemma contribution_reflects (w : World) (account : string) (k : Z) (r : TicketRecord) :
  In r (contribution w account k) ->
  tokenId r = k /\ reflectsLedger w account r
  /\ (metadata r = placeholderMetadata k \/ parsedMetadata w r).
Proof.
  destruct (token_outcome w account k)
    as [[o [_ [_ [-> _]]]] | [[e [_ [-> _]]] | [o [t [ev [uri [md H]]]]]]];
    try (intros []).
  destruct H as [Ho [Hs [Ht [He [Hu [-> Hm]]]]]].
  intros [<- | []]. simpl. split; [reflexivity |]. split.
  - exists o, t, ev. simpl. repeat split; assumption.
  - destruct Hm as [[_ [-> _]] | [url [resp [Hi [Hf [Hj _]]]]]]; [now left |].
    right. exists uri, url, resp. simpl. repeat split; assumption.
Qed.

Lemma contributions_NoDup (w : World) (account : string) (ids : list Z) :
  NoDup ids -> NoDup (map tokenId (flat_map (contribution w account) ids)).
Proof.
  induction 1 as [|k r Hk Hr IH]; simpl; [constructor |].
  rewrite map_app.
  destruct (contribution_shape w account k) as [-> | [rec [-> Hid]]]; [exact IH |].
  simpl. rewrite Hid. constructor; [|exact IH].
  intros Hin. apply in_map_iff in Hin. destruct Hin as [r' [Hr' Hin]].
  apply in_flat_map in Hin. destruct Hin as [j [Hj Hin]].
  apply contribution_tokenId in Hin. apply Hk. congruence.
Qed.

(** X7.  Whatever the per-token calls answer, after a pass whose log
    query succeeded no token id occurs twice in the resolved set, and
    every record in it is for a token of the log whose owner lookup
    returned the account (up to case) and carries the event id, name,
    date, used and locked flags that the ticket and event lookups
    returned. *)
Theorem resolved_records_sound
        (w : World) (account : string) (events : list TransferEvent) (s : St) :
  scanSucceeds w account events ->
  NoDup (map tokenId (tickets (snd (fetchUserTickets w account s))))
  /\ (forall r, In r (tickets (snd (fetchUserTickets w account s))) ->
        In (tokenId r) (map tr_tokenId events) /\ reflectsLedger w account r).
Proof.
  intros [Hc Hq].
  rewrite (fetchUserTickets_ok w account events s Hc Hq). simpl. split.
  - apply (Permutation_NoDup
             (Permutation_sym (Permutation_map tokenId (sort_perm byEventDate _)))).
    apply contributions_NoDup, spreadSet_NoDup.
  - intros r Hr.
    apply (Permutation_in _ (sort_perm byEventDate _)) in Hr.
    apply in_flat_map in Hr. destruct Hr as [k [Hk Hr]].
    apply contribution_reflects in Hr. destruct Hr as [Hid [Hl _]].
    split; [|exact Hl]. rewrite Hid. now apply spreadSet_In.
Qed.

Lemma resolved_records_sound_witness :
  NoDup (map tokenId (tickets (snd (fetchUserTickets worldWithoutUri3 Demo.account initialSt)))).
Proof.
  refine (proj1 (resolved_records_sound worldWithoutUri3 Demo.account demoEvents
                   initialSt _)).
  split; reflexivity.
Defined.

(** X8.  After a pass whose log query succeeded, the metadata of every
    resolved record is either the placeholder for its token or exactly
    the object parsed from the body fetched for its token; the parsed
    object is stored as it came. *)
Theorem resolved_metadata_provenance
        (w : World) (account : string) (events : list TransferEvent) (s : St)
        (r : TicketRecord) :
  scanSucceeds w account events ->
  In r (tickets (snd (fetchUserTickets w account s))) ->
  metadata r = placeholderMetadata (tokenId r) \/ parsedMetadata w r.
Proof.
  intros [Hc Hq].
  rewrite (fetchUserTickets_ok w account events s Hc Hq). simpl. intros Hr.
  apply (Permutation_in _ (sort_perm byEventDate _)) in Hr.
  apply in_flat_map in Hr. destruct Hr as [k [Hk Hr]].
  apply contribution_reflects in Hr. destruct Hr as [Hid [_ Hm]].
  now rewrite Hid.
Qed.

Lemma resolved_metadata_provenance_witness :
  let r := mkRecord 3 7 "Rock Concert" 7000 false false
                    (mkMetadata (Str "Front row") (Str "Seat 12") Undefined) in
  metadata r = placeholderMetadata (tokenId r) \/ parsedMetadata Demo.world r.
Proof.
  refine (resolved_metadata_provenance Demo.world Demo.account demoEvents initialSt
            _ _ _).
  - split; reflexivity.
  - vm_compute. right; left. reflexivity.
Defined.

Lemma St_eta (s : St) :
  mkSt (tickets s) (loading s) (error s) (userTickets s ++ []) (console s ++ []) = s.
Proof. destruct s; simpl. now rewrite !app_nil_r. Qed.

(** X9.  In the loop, a token that now belongs to someone else is
    passed over in silence: the step leaves the state as it was.  A
    token whose ownership, ticket or event lookup fails adds one
    "Error processing token" line to the console and nothing else. *)
Theorem exclusion_silent_failure_logged
        (w : World) (account : string) (k : Z) (st : St) :
  (forall o, ownerOf w k = Ok o -> ~ sameAddress o account ->
     processToken w account k st = (Ok tt, st))
  /\ (lookupFails w account k ->
      exists e,
        processToken w account k st
        = (Ok tt, mkSt (tickets st) (loading st) (error st) (userTickets st)
                       (console st ++ [processingError k e]))).
Proof.
  split.
  - intros o Ho Hne. rewrite processToken_frame.
    rewrite (contribution_not_owner w account k o Ho Hne).
    assert (Hs : (toLowerCase o =? toLowerCase account)%string = false).
    { destruct (toLowerCase o =? toLowerCase account)%string eqn:E; [|reflexivity].
      apply sameAddress_eqb in E. contradiction. }
    assert (Hd : diagnostics w account k = []) by (token_run; reflexivity).
    rewrite Hd. now rewrite St_eta.
  - intros Hf. rewrite processToken_frame.
    rewrite (contribution_lookupFails w account k Hf), app_nil_r.
    destruct Hf as [[e H] | [[o [e [Ho [Hs Ht]]]] | [o [t [e [Ho [Hs [Ht He]]]]]]]];
      try apply sameAddress_eqb in Hs; exists e;
      assert (Hd : diagnostics w account k = [processingError k e])
        by (token_run; reflexivity);
      now rewrite Hd.
Qed.

Lemma exclusion_silent_failure_logged_witness :
  processToken Demo.world Demo.account 9 initialSt = (Ok tt, initialSt).
Proof.
  refine (proj1 (exclusion_silent_failure_logged Demo.world Demo.account 9 initialSt)
                "0x99999999" _ _).
  - reflexivity.
  - unfold sameAddress. vm_compute. discriminate.
Defined.

(** X10.  The token-URI lookup sits outside the metadata [try]: when it
    fails for a token of the log, the token is dropped from the resolved
    set and one "Error processing token" line with that error is on the
    console, although every ledger lookup for the token succeeded. *)
Theorem uri_failure_drops_token
        (w : World) (account : string) (events : list TransferEvent) (s : St)
        (k : Z) (e : Exn) :
  scanSucceeds w account events ->
  In k (map tr_tokenId events) ->
  uriLookupFails w account k e ->
  ~ In k (map tokenId (tickets (snd (fetchUserTickets w account s))))
  /\ In (processingError k e) (console (snd (fetchUserTickets w account s))).
Proof.
  intros [Hc Hq] Hk [o [t [ev [Ho [Hs [Ht [He Hu]]]]]]].
  rewrite (fetchUserTickets_ok w account events s Hc Hq). simpl.
  apply sameAddress_eqb in Hs.
  assert (Hcon : contribution w account k = []) by (token_run; reflexivity).
  assert (Hd : diagnostics w account k = [processingError k e])
    by (token_run; reflexivity).
  split.
  - intros Hin. apply in_map_iff in Hin. destruct Hin as [r [Hid Hr]].
    apply (Permutation_in _ (sort_perm byEventDate _)) in Hr.
    apply in_flat_map in Hr. destruct Hr as [j [_ Hr]].
    pose proof (contribution_tokenId w account j r Hr) as Hj.
    assert (Hjk : j = k) by congruence.
    rewrite Hjk, Hcon in Hr. exact Hr.
  - apply in_or_app. right. apply in_flat_map. exists k.
    split; [now apply spreadSet_In | rewrite Hd; now left].
Qed.

Lemma uri_failure_drops_token_witness :
  ~ In 3 (map tokenId (tickets (snd (fetchUserTickets worldWithoutUri3 Demo.account initialSt))))
  /\ In (processingError 3 (Error "call revert exception"))
        (console (snd (fetchUserTickets worldWithoutUri3 Demo.account initialSt))).
Proof.
  refine (uri_failure_drops_token worldWithoutUri3 Demo.account demoEvents initialSt
            3 (Error "call revert exception") _ _ _).
  - split; reflexivity.
  - simpl. tauto.
  - exists "0xABCDEF01", (mkTicket 7 false false), (mkEventInfo "Rock Concert" 7000).
    repeat split.
Defined.

Lemma scan_cases (w : World) (account : string) :
  (exists events, scanSucceeds w account events)
  \/ (exists e, scanFails w account e).
Proof.
  unfold scanSucceeds, scanFails.
  destruct (getContract w) as [[]|e].
  - destruct (queryFilter w account) as [events|e].
    + left. now exists events.
    + right. exists e. now right.
  - right. exists e. now left.
Qed.

(** X11.  No exception escapes the pass.  Once every awaited call has
    settled, whichever of them were rejected, [fetchUserTickets] has
    returned normally with [loading = false], with the error cell either
    as it was or set to the failure message, and with the earlier
    console lines still in place. *)
Theorem pass_always_completes (w : World) (account : string) (s : St) :
  fst (fetchUserTickets w account s) = Ok tt
  /\ loading (snd (fetchUserTickets w account s)) = false
  /\ (error (snd (fetchUserTickets w account s)) = error s
      \/ error (snd (fetchUserTickets w account s)) = Some loadFailure)
  /\ exists lines,
       console (snd (fetchUserTickets w account s)) = (console s ++ lines)%list.
Proof.
  destruct (scan_cases w account) as [[events [Hc Hq]] | [e He]].
  - rewrite (fetchUserTickets_ok w account events s Hc Hq). simpl.
    repeat split; [now left | eexists; reflexivity].
  - rewrite (fetchUserTickets_abort w account e s He). simpl.
    repeat split; [now right | eexists; reflexivity].
Qed.

(** X12.  When the contract lookup or the log query fails, the pass
    leaves the ticket list as it was, sets the error cell to the failure
    message, writes one "Error fetching user tickets" line, and the
    connected page shows that message and no ticket. *)
Theorem scan_failure_aborts
        (w : World) (account : string) (e : Exn) (s : St) (clock : Clock)
        (isConnected : Val) :
  scanFails w account e -> truthy isConnected = true ->
  tickets (snd (fetchUserTickets w account s)) = tickets s
  /\ error (snd (fetchUserTickets w account s)) = Some loadFailure
  /\ console (snd (fetchUserTickets w account s))
     = (console s ++ [ConsoleError "Error fetching user tickets:" e])%list
  /\ render w clock isConnected (snd (fetchUserTickets w account s))
     = Ok (RenderError loadFailure).
Proof.
  intros He Hc. rewrite (fetchUserTickets_abort w account e s He).
  unfold render, errorShown. rewrite Hc. simpl. repeat split.
Qed.

Lemma scan_failure_aborts_witness :
  render brokenWorld (fun _ => 4000) (Bool true)
         (snd (fetchUserTickets brokenWorld Demo.account initialSt))
  = Ok (RenderError loadFailure).
Proof.
  refine (proj2 (proj2 (proj2
            (scan_failure_aborts brokenWorld Demo.account (Error "network error")
               initialSt (fun _ => 4000) (Bool true) _ _)))).
  - right. split; reflexivity.
  - reflexivity.
Defined.

(** X13.  The ticket list a pass produces does not depend on the state
    it starts from when its log query succeeds (records of an earlier
    pass are never merged in), and running the pass twice in the same
    world gives the ticket list of running it once. *)
Theorem pass_idempotent (w : World) (account : string) (s : St) :
  tickets (snd (fetchUserTickets w account (snd (fetchUserTickets w account s))))
  = tickets (snd (fetchUserTickets w account s))
  /\ (forall events s', scanSucceeds w account events ->
        tickets (snd (fetchUserTickets w account s'))
        = tickets (snd (fetchUserTickets w account s))).
Proof.
  split.
  - destruct (scan_cases w account) as [[events [Hc Hq]] | [e He]].
    + now rewrite !(fetchUserTickets_ok w account events _ Hc Hq).
    + now rewrite !(fetchUserTickets_abort w account e _ He).
  - intros events s' [Hc Hq].
    now rewrite !(fetchUserTickets_ok w account events _ Hc Hq).
Qed.

Lemma pass_idempotent_witness :
  tickets (snd (fetchUserTickets Demo.world Demo.account
                  (snd (fetchUserTickets brokenWorld Demo.account initialSt))))
  = tickets (snd (fetchUserTickets Demo.world Demo.account initialSt)).
Proof.
  refine (proj2 (pass_idempotent Demo.world Demo.account initialSt) demoEvents _ _).
  split; reflexivity.
Defined.

(** X14.  The error cell is never cleared.  After a pass that failed, a
    later pass that succeeds loads its tickets into the state, but the
    connected page still shows the failure message instead of them. *)
Theorem error_is_sticky
        (w1 w2 : World) (account1 account2 : string) (e : Exn)
        (events : list TransferEvent) (s : St) (clock : Clock) (isConnected : Val) :
  scanFails w1 account1 e -> scanSucceeds w2 account2 events ->
  truthy isConnected = true ->
  let failed := snd (fetchUserTickets w1 account1 s) in
  let retried := snd (fetchUserTickets w2 account2 failed) in
  tickets retried = tickets (snd (fetchUserTickets w2 account2 s))
  /\ error retried = Some loadFailure
  /\ render w2 clock isConnected retried = Ok (RenderError loadFailure).
Proof.
  intros He [Hc Hq] Hconn. simpl.
  rewrite (fetchUserTickets_abort w1 account1 e s He).
  rewrite !(fetchUserTickets_ok w2 account2 events _ Hc Hq).
  unfold render, errorShown. rewrite Hconn. simpl. repeat split.
Qed.

Lemma error_is_sticky_witness :
  render Demo.world (fun _ => 4000) (Bool true)
         (snd (fetchUserTickets Demo.world Demo.account
                 (snd (fetchUserTickets brokenWorld Demo.account initialSt))))
  = Ok (RenderError loadFailure).
Proof.
  refine (proj2 (proj2
            (error_is_sticky brokenWorld Demo.world Demo.account Demo.account
               (Error "network error") demoEvents initialSt (fun _ => 4000)
               (Bool true) _ _ _))).
  - right. split; reflexivity.
  - split; reflexivity.
  - reflexivity.
Defined.

(* ================================================================== *)
(** ** The candidate list, again *)
(* ================================================================== *)

Lemma filter_filter_and {A : Type} (f g : A -> bool) (l : list A) :
  filter f (filter g l) = filter (fun x => f x && g x) l.
Proof.
  induction l as [|x r IH]; simpl; [reflexivity |].
  destruct (g x); simpl; [destruct (f x); now rewrite IH | now rewrite andb_false_r].
Qed.

Lemma fold_setAdd_firstOccurrences (l acc : list Z) :
  fold_left setAdd l acc
  = (acc ++ filter (fun y => negb (existsb (Z.eqb y) acc)) (firstOccurrences l))%list.
Proof.
  revert acc; induction l as [|x r IH]; intros acc; simpl.
  - now rewrite app_nil_r.
  - rewrite IH. unfold setAdd.
    destruct (existsb (Z.eqb x) acc) eqn:E; simpl.
    + f_equal. rewrite filter_filter_and. apply filter_ext. intros y.
      destruct (Z.eqb_spec y x) as [-> | Hne]; simpl.
      * now rewrite E.
      * now rewrite andb_true_r.
    + rewrite <- app_assoc. simpl. do 2 f_equal.
      rewrite filter_filter_and. apply filter_ext. intros y.
      rewrite existsb_app. simpl. rewrite orb_false_r, negb_orb. reflexivity.
Qed.

Lemma spreadSet_firstOccurrences (l : list Z) : spreadSet l = firstOccurrences l.
Proof.
  unfold spreadSet. rewrite fold_setAdd_firstOccurrences. simpl.
  induction (firstOccurrences l) as [|x r IH]; simpl; [reflexivity | now rewrite IH].
Qed.

Lemma firstOccurrences_NoDup (l : list Z) : NoDup l -> firstOccurrences l = l.
Proof.
  induction 1 as [|x r Hx Hr IH]; simpl; [reflexivity |].
  rewrite IH. f_equal.
  apply forallb_filter_id. apply forallb_forall. intros y Hy.
  destruct (Z.eqb_spec y x) as [-> | Hne]; [contradiction | reflexivity].
Qed.

(** X15.  The candidate list keeps the first occurrence of every token
    id of the log, in log order: the list for [x :: l] is [x] followed
    by the list for [l] without [x].  On a log without repeated ids it
    is the log's ids unchanged. *)
Theorem spreadSet_first_occurrences (x : Z) (l : list Z) :
  spreadSet (x :: l) = x :: filter (fun y => negb (y =? x)) (spreadSet l)
  /\ (NoDup l -> spreadSet l = l).
Proof.
  split.
  - now rewrite !spreadSet_firstOccurrences.
  - intros H. rewrite spreadSet_firstOccurrences. now apply firstOccurrences_NoDup.
Qed.

Lemma spreadSet_first_occurrences_witness : spreadSet [9; 3; 7] = [9; 3; 7].
Proof.
  refine (proj2 (spreadSet_first_occurrences 0 [9; 3; 7]) _).
  repeat constructor; simpl; intuition lia.
Defined.

(* ================================================================== *)
(** ** The page *)
(* ================================================================== *)

Lemma fetchUserTickets_loading (w : World) (account : string) (s : St) :
  loading (snd (fetchUserTickets w account s)) = false.
Proof.
  destruct (scan_cases w account) as [[events [Hc Hq]] | [e He]].
  - now rewrite (fetchUserTickets_ok w account events s Hc Hq).
  - now rewrite (fetchUserTickets_abort w account e s He).
Qed.

Lemma section_cards (title : string) (cards : list Card) :
  flat_map snd (section title cards) = cards.
Proof.
  unfold section. destruct cards as [|c r]; [reflexivity |].
  destruct (Z.ltb_spec 0 (Z.of_nat (List.length (c :: r)))) as [_ | H].
  - simpl. now rewrite app_nil_r.
  - simpl List.length in H. lia.
Qed.

Lemma section_nonempty (title : string) (cards : list Card) :
  Forall (fun sec => snd sec <> []) (section title cards).
Proof.
  unfold section. destruct cards as [|c r]; [constructor |].
  destruct (0 <? Z.of_nat (List.length (c :: r))); repeat constructor.
  simpl. discriminate.
Qed.

Lemma ticketSections_cards (w : World) (now : Z) (ts : list TicketRecord) :
  Permutation (flat_map snd (ticketSections w now ts))
              (map (renderTicketCard w now) ts).
Proof.
  unfold ticketSections. rewrite !flat_map_app, !section_cards, <- !map_app.
  apply Permutation_map, buckets_perm.
Qed.

Lemma filterAt_oneReading (clock : Clock) (now : Z)
      (test : Z -> TicketRecord -> bool) (ts : list TicketRecord) (i : nat) :
  oneReading clock now -> filterAt clock i test ts = filter (test now) ts.
Proof.
  intros H. revert i; induction ts as [|t r IH]; intros i; simpl; [reflexivity |].
  now rewrite H, IH.
Qed.

Lemma renderCards_oneReading (w : World) (clock : Clock) (now : Z)
      (ts : list TicketRecord) (i : nat) :
  oneReading clock now ->
  (forall t, In t ts -> exists v, imgSrc w t = Ok v) ->
  renderCards w clock i ts = Ok (map (renderTicketCard w now) ts).
Proof.
  intros H. revert i; induction ts as [|t r IH]; intros i Hs; simpl; [reflexivity |].
  destruct (Hs t (or_introl eq_refl)) as [v ->].
  rewrite IH by (intros t' Ht'; apply Hs; now right).
  now rewrite !H.
Qed.

(** A list of cards that rendered has a card for every ticket of the
    bucket, under the ticket's key, and no [src] of the bucket threw. *)
Lemma renderCards_ok (w : World) (clock : Clock) (ts : list TicketRecord) (i : nat)
      (cards : list Card) :
  renderCards w clock i ts = Ok cards ->
  map card_key cards = map tokenId ts
  /\ (forall t, In t ts -> exists v, imgSrc w t = Ok v).
Proof.
  revert i cards; induction ts as [|t r IH]; intros i cards; simpl.
  - intros H. injection H as <-. split; [reflexivity | intros t []].
  - destruct (imgSrc w t) as [v|e] eqn:Hv; [|discriminate].
    destruct (renderCards w clock (i + 3) r) as [cs|e] eqn:Hr; [|discriminate].
    intros H. injection H as <-. destruct (IH _ _ Hr) as [Hk Hs].
    split; [simpl; now rewrite Hk |].
    intros t' [<- | Ht']; [now exists v | now apply Hs].
Qed.

(** X16.  When the component shows tickets (connected, not loading, no
    error, a non-empty ticket list) and the clock gives one reading to
    all the [isUpcoming] calls of the render: if the [src] expression of
    every ticket evaluates, the render returns at least one section, no
    empty section, and the cards of the sections taken together are the
    cards of the tickets of the state, each ticket on exactly one card;
    if the [src] expression of some ticket throws, the whole render
    throws and nothing is shown. *)
Theorem every_ticket_on_one_card
        (w : World) (clock : Clock) (now : Z) (isConnected : Val) (s : St) :
  truthy isConnected = true -> loading s = false -> errorShown s = None ->
  tickets s <> [] -> oneReading clock now ->
  ((forall t, In t (tickets s) -> exists v, imgSrc w t = Ok v) ->
   exists sections,
     render w clock isConnected s = Ok (RenderSections sections)
     /\ sections <> []
     /\ Forall (fun sec => snd sec <> []) sections
     /\ Permutation (flat_map snd sections)
                    (map (renderTicketCard w now) (tickets s)))
  /\ (forall t e, In t (tickets s) -> imgSrc w t = Throw e ->
      exists e', render w clock isConnected s = Throw e').
Proof.
  intros Hc Hl He Ht Hone. unfold render. rewrite Hc, Hl, He. simpl.
  destruct (Z.eqb_spec (Z.of_nat (List.length (tickets s))) 0) as [E | _].
  { destruct (tickets s); [contradiction | simpl in E; lia]. }
  rewrite !(filterAt_oneReading clock now) by exact Hone.
  fold (upcomingTickets now (tickets s)). fold (expiredTickets now (tickets s)).
  split.
  - intros Hs.
    rewrite !(renderCards_oneReading w clock now) by
      (try exact Hone; intros t Hin; apply Hs;
       first [ apply in_upcoming in Hin | apply in_used in Hin
             | apply in_expired in Hin ]; tauto).
    exists (ticketSections w now (tickets s)). split; [reflexivity |]. split; [|split].
    + intros E. pose proof (ticketSections_cards w now (tickets s)) as P.
      rewrite E in P. simpl in P. apply Permutation_nil in P.
      destruct (tickets s); [contradiction | discriminate].
    + unfold ticketSections. rewrite !Forall_app.
      repeat split; apply section_nonempty.
    + apply ticketSections_cards.
  - intros t e Hin Hthrow.
    destruct (renderCards w clock _ (upcomingTickets now (tickets s)))
      as [c1|e1] eqn:H1; [|now exists e1].
    destruct (renderCards w clock _ (usedTickets (tickets s)))
      as [c2|e2] eqn:H2; [|now exists e2].
    destruct (renderCards w clock _ (expiredTickets now (tickets s)))
      as [c3|e3] eqn:H3; [|now exists e3].
    exfalso.
    apply renderCards_ok in H1, H2, H3.
    assert (Hb : In t (upcomingTickets now (tickets s) ++ usedTickets (tickets s)
                       ++ expiredTickets now (tickets s))).
    { apply (Permutation_in _ (Permutation_sym (buckets_perm now (tickets s)))).
      exact Hin. }
    rewrite !in_app_iff in Hb.
    destruct Hb as [Hb | [Hb | Hb]];
      [ destruct (proj2 H1 t Hb) as [v Hv]
      | destruct (proj2 H2 t Hb) as [v Hv]
      | destruct (proj2 H3 t Hb) as [v Hv] ]; congruence.
Qed.

Lemma every_ticket_on_one_card_witness :
  exists sections,
    render Demo.world (fun _ => 4000) (Bool true)
           (snd (fetchUserTickets Demo.world Demo.account initialSt))
    = Ok (RenderSections sections)
    /\ sections <> []
    /\ Forall (fun sec => snd sec <> []) sections
    /\ Permutation
         (flat_map snd sections)
         (map (renderTicketCard Demo.world 4000)
              (tickets (snd (fetchUserTickets Demo.world Demo.account initialSt)))).
Proof.
  refine (proj1 (every_ticket_on_one_card Demo.world (fun _ => 4000) 4000 (Bool true)
            (snd (fetchUserTickets Demo.world Demo.account initialSt)) _ _ _ _ _) _).
  - reflexivity.
  - reflexivity.
  - reflexivity.
  - vm_compute. discriminate.
  - intros i. reflexivity.
  - intros t Ht. vm_compute in Ht.
    destruct Ht as [<- | [<- | []]]; eexists; vm_compute; reflexivity.
Defined.

(** With two clock readings one ticket can pass both the Upcoming and
    the Expired filter: dated 5000, it is still to come at 4999 and
    over at 5000, and the render shows it on two cards. *)
Example two_readings_two_cards :
  let t := mkRecord 1 4 "Rock Concert" 5000 false false (placeholderMetadata 1) in
  let clock := fun i => if Nat.eqb i 0 then 4999 else 5000 in
  let s := mkSt [t] false None [] [] in
  exists upcomingCard expiredCard,
    render Demo.world clock (Bool true) s
    = Ok (RenderSections [ ("Upcoming Events", [upcomingCard]);
                           ("Expired Tickets", [expiredCard]) ])
    /\ card_key upcomingCard = 1 /\ card_key expiredCard = 1.
Proof. simpl. eexists; eexists. vm_compute. repeat split. Qed.

(** X17.  The labels on a card agree with the section the ticket is
    listed in: the card is marked Active exactly when the ticket is in
    the Upcoming bucket, carries the USED overlay exactly when it is in
    the Used bucket and the EXPIRED overlay exactly when it is in the
    Expired bucket; exactly one of the three marks is on the card, and a
    ticket dated at the very instant of rendering is already expired. *)
Theorem card_matches_section
        (w : World) (now : Z) (ts : list TicketRecord) (t : TicketRecord) :
  In t ts ->
  (card_active (renderTicketCard w now t) = true <-> In t (upcomingTickets now ts))
  /\ (card_usedOverlay (renderTicketCard w now t) = true <-> In t (usedTickets ts))
  /\ (card_expiredOverlay (renderTicketCard w now t) = true
      <-> In t (expiredTickets now ts))
  /\ (card_active (renderTicketCard w now t) = true
        /\ card_usedOverlay (renderTicketCard w now t) = false
        /\ card_expiredOverlay (renderTicketCard w now t) = false
      \/ card_active (renderTicketCard w now t) = false
         /\ card_usedOverlay (renderTicketCard w now t) = true
         /\ card_expiredOverlay (renderTicketCard w now t) = false
      \/ card_active (renderTicketCard w now t) = false
         /\ card_usedOverlay (renderTicketCard w now t) = false
         /\ card_expiredOverlay (renderTicketCard w now t) = true)
  /\ (eventDate t = now -> used t = false ->
      card_expiredOverlay (renderTicketCard w now t) = true).
Proof.
  intros Hin. simpl.
  unfold upcomingTickets, usedTickets, expiredTickets. rewrite !filter_In.
  repeat split; try tauto.
  - destruct (used t), (isUpcoming now (eventDate t)); simpl; tauto.
  - intros E Hu. rewrite Hu, E. unfold isUpcoming.
    rewrite Z.gtb_ltb, Z.ltb_irrefl, andb_false_r. reflexivity.
Qed.

Lemma card_matches_section_witness :
  let t := mkRecord 8 7 "Rock Concert" 7000 true false (placeholderMetadata 8) in
  card_usedOverlay (renderTicketCard Demo.world 4000 t) = true
  <-> In t (usedTickets Demo.resolved).
Proof.
  refine (proj1 (proj2 (card_matches_section Demo.world 4000 Demo.resolved _ _))).
  simpl. tauto.
Defined.

(** X18.  After a pass whose log query succeeded, when the clock gives
    one reading to all the [isUpcoming] calls of the render, no two
    cards of what the component renders have the same key. *)
Theorem card_keys_unique
        (w : World) (account : string) (events : list TransferEvent) (s : St)
        (clock : Clock) (now : Z) (isConnected : Val) (v : View) :
  scanSucceeds w account events -> oneReading clock now ->
  render w clock isConnected (snd (fetchUserTickets w account s)) = Ok v ->
  NoDup (map card_key (cardsOf v)).
Proof.
  intros [Hc Hq] Hone.
  rewrite (fetchUserTickets_ok w account events s Hc Hq).
  unfold render. simpl loading. simpl tickets.
  set (ts := sort byEventDate _).
  destruct (negb (truthy isConnected)); [intros H; injection H as <-; constructor |].
  destruct (errorShown _); [intros H; injection H as <-; constructor |].
  simpl. destruct (_ =? 0); [intros H; injection H as <-; constructor |].
  rewrite !(filterAt_oneReading clock now) by exact Hone.
  fold (upcomingTickets now ts). fold (expiredTickets now ts).
  destruct (renderCards w clock _ (upcomingTickets now ts)) as [c1|e1] eqn:H1;
    [|discriminate].
  destruct (renderCards w clock _ (usedTickets ts)) as [c2|e2] eqn:H2; [|discriminate].
  destruct (renderCards w clock _ (expiredTickets now ts)) as [c3|e3] eqn:H3;
    [|discriminate].
  intros H. injection H as <-. unfold cardsOf.
  rewrite !flat_map_app, !section_cards, !map_app.
  apply renderCards_ok in H1, H2, H3.
  rewrite (proj1 H1), (proj1 H2), (proj1 H3), <- !map_app.
  apply (Permutation_NoDup
           (Permutation_sym (Permutation_map tokenId (buckets_perm now ts)))).
  subst ts.
  apply (Permutation_NoDup
           (Permutation_sym (Permutation_map tokenId (sort_perm byEventDate _)))).
  apply contributions_NoDup, spreadSet_NoDup.
Qed.

Lemma card_keys_unique_witness :
  NoDup (map card_key
             (cardsOf (RenderSections
                         [ ("Upcoming Events",
                            [renderTicketCard Demo.world 4000
                               (mkRecord 3 7 "Rock Concert" 7000 false false
                                  (mkMetadata (Str "Front row") (Str "Seat 12")
                                              Undefined))]);
                           ("Used Tickets",
                            [renderTicketCard Demo.world 4000
                               (mkRecord 7 3 "Cultural Night" 3000 true false
                                         (placeholderMetadata 7))]) ]))).
Proof.
  refine (card_keys_unique Demo.world Demo.account demoEvents initialSt
            (fun _ => 4000) 4000 (Bool true) _ _ _ _).
  - split; reflexivity.
  - intros i. reflexivity.
  - vm_compute. reflexivity.
Defined.

(** X19.  The effect redirects only on [isConnected === false]: then it
    navigates to "/" and leaves the component state alone.  For any
    other falsy [isConnected] ([undefined], [null]) it neither navigates
    nor starts a pass, and the component renders nothing. *)
Theorem effect_when_disconnected
        (w : World) (isConnected : Val) (account : option string) (p : Page)
        (clock : Clock) :
  truthy isConnected = false ->
  render w clock isConnected (page_state (useEffectBody w isConnected account p))
  = Ok RenderNull
  /\ page_state (useEffectBody w isConnected account p) = page_state p
  /\ (isConnected = Bool false ->
      page_route (useEffectBody w isConnected account p) = Some "/")
  /\ (isConnected <> Bool false ->
      useEffectBody w isConnected account p = p).
Proof.
  intros Hf. split; [unfold render; now rewrite Hf |].
  assert (Hcases : isConnected = Bool false
                   \/ strictEq isConnected (Bool false) = false).
  { destruct isConnected as [| |b|n|str]; simpl; auto. destruct b; auto. }
  destruct Hcases as [-> | Hs]; unfold useEffectBody.
  - simpl. repeat split. intros H. congruence.
  - rewrite Hs, Hf. simpl.
    assert (E : match account with Some _ => p | None => p end = p)
      by (destruct account; reflexivity).
    rewrite E. repeat split.
    intros ->. discriminate.
Qed.

Lemma effect_when_disconnected_witness :
  useEffectBody Demo.world Undefined (Some Demo.account) initialPage = initialPage.
Proof.
  refine (proj2 (proj2 (proj2
            (effect_when_disconnected Demo.world Undefined (Some Demo.account)
               initialPage (fun _ => 4000) _))) _).
  - reflexivity.
  - discriminate.
Defined.

(** X20.  With a truthy [isConnected]: when the account is missing or
    empty the effect starts no pass, so the page mounted in the loading
    state stays on "Loading"; when the account is a non-empty string the
    effect runs the pass for it, does not navigate, and the page is no
    longer on "Loading". *)
Theorem effect_when_connected
        (w : World) (isConnected : Val) (account : option string) (p : Page)
        (clock : Clock) :
  truthy isConnected = true ->
  (account = None \/ account = Some "" ->
   useEffectBody w isConnected account p = p
   /\ (loading (page_state p) = true ->
       render w clock isConnected (page_state (useEffectBody w isConnected account p))
       = Ok RenderLoading))
  /\ (forall a, account = Some a -> a <> "" ->
      useEffectBody w isConnected account p
      = mkPage (snd (fetchUserTickets w a (page_state p))) (page_route p)
      /\ render w clock isConnected (page_state (useEffectBody w isConnected account p))
         <> Ok RenderLoading).
Proof.
  intros Hc.
  assert (Hnf : strictEq isConnected (Bool false) = false).
  { destruct isConnected as [| |b|n|str]; try reflexivity.
    destruct b; [reflexivity | discriminate]. }
  split.
  - intros Ha.
    assert (E : useEffectBody w isConnected account p = p).
    { unfold useEffectBody. rewrite Hnf.
      destruct Ha as [-> | ->]; [reflexivity |].
      simpl. now rewrite andb_false_r. }
    split; [exact E |].
    intros Hl. rewrite E. unfold render. now rewrite Hc, Hl.
  - intros a -> Ha.
    assert (E : useEffectBody w isConnected (Some a) p
                = mkPage (snd (fetchUserTickets w a (page_state p))) (page_route p)).
    { unfold useEffectBody. rewrite Hnf, Hc.
      destruct a; [contradiction | reflexivity]. }
    split; [exact E |].
    rewrite E. simpl page_state. unfold render.
    rewrite Hc, fetchUserTickets_loading. simpl.
    destruct (errorShown _); [discriminate |].
    destruct (_ =? 0); [discriminate |].
    repeat (destruct (renderCards _ _ _ _); try discriminate).
Qed.

Lemma effect_when_connected_witness :
  useEffectBody Demo.world (Bool true) (Some "") initialPage = initialPage
  /\ (loading (page_state initialPage) = true ->
      render Demo.world (fun _ => 4000) (Bool true)
             (page_state (useEffectBody Demo.world (Bool true) (Some "") initialPage))
      = Ok RenderLoading).
Proof.
  refine (proj1 (effect_when_connected Demo.world (Bool true) (Some "")
                   initialPage (fun _ => 4000) _) _).
  - reflexivity.
  - now right.
Defined.

Lemma contribution_not_owned (w : World) (account : string) (k : Z) :
  ownedBy w account k = false -> contribution w account k = [].
Proof.
  unfold ownedBy. destruct (ownerOf w k) as [o|e] eqn:Ho.
  - intros Hs. apply (contribution_not_owner w account k o Ho).
    intros H. apply sameAddress_eqb in H. congruence.
  - intros _. apply contribution_lookupFails. left. now exists e.
Qed.

(** X21.  When the log query succeeds and the account owns none of the
    log's tokens (an empty log included), the resolved set is empty and
    the connected page, absent an earlier error, shows the "no tickets"
    panel. *)
Theorem nothing_owned_no_tickets
        (w : World) (account : string) (events : list TransferEvent) (s : St)
        (clock : Clock) (isConnected : Val) :
  scanSucceeds w account events ->
  (forall k, In k (map tr_tokenId events) -> ownedBy w account k = false) ->
  truthy isConnected = true -> error s = None ->
  tickets (snd (fetchUserTickets w account s)) = []
  /\ render w clock isConnected (snd (fetchUserTickets w account s))
     = Ok RenderNoTickets.
Proof.
  intros [Hc Hq] Hown Hconn Herr.
  rewrite (fetchUserTickets_ok w account events s Hc Hq).
  assert (E : flat_map (contribution w account) (spreadSet (map tr_tokenId events)) = []).
  { assert (H : forall k, In k (spreadSet (map tr_tokenId events)) ->
                          contribution w account k = []).
    { intros k Hk. apply contribution_not_owned, Hown. now apply spreadSet_In. }
    induction (spreadSet (map tr_tokenId events)) as [|k r IH]; [reflexivity |].
    simpl. rewrite (H k) by now left. apply IH. intros j Hj. apply H. now right. }
  simpl. rewrite E. simpl. split; [reflexivity |].
  unfold render, errorShown. simpl. now rewrite Hconn, Herr.
Qed.

Lemma nothing_owned_no_tickets_witness :
  tickets (snd (fetchUserTickets Demo.world "0x12345678" initialSt)) = []
  /\ render Demo.world (fun _ => 4000) (Bool true)
            (snd (fetchUserTickets Demo.world "0x12345678" initialSt))
     = Ok RenderNoTickets.
Proof.
  refine (nothing_owned_no_tickets Demo.world "0x12345678" demoEvents initialSt
            (fun _ => 4000) (Bool true) _ _ _ _).
  - split; reflexivity.
  - intros k Hk. simpl in Hk.
    destruct Hk as [<- | [<- | [<- | [<- | []]]]]; reflexivity.
  - reflexivity.
  - reflexivity.
Defined.

(** X22.  A ticket whose metadata is the placeholder and whose id is not
    negative always gets an image on its card, whatever [ipfsToHttp]
    does: a non-empty entry of the tables, taken from
    [CULTURAL_TICKET_IMAGES] exactly when the ticket is ticket 0 or the
    event name contains "cultural" up to case. *)
Theorem placeholder_card_image (w : World) (t : TicketRecord) (k : Z) :
  metadata t = placeholderMetadata k -> 0 <= tokenId t ->
  exists img,
    imgSrc w t = Ok (Str img) /\ img <> ""
    /\ (In img CULTURAL_TICKET_IMAGES
        <-> tokenId t = 0 \/ containsIgnoreCase (eventName t) "cultural").
Proof.
  intros Hm Hn.
  assert (Hsrc : imgSrc w t
                 = getTicketFallbackImage (Some (ticketEvent t)) (Num (tokenId t))).
  { unfold imgSrc. now rewrite Hm. }
  assert (Hd : textual (md_description (metadata t))) by (rewrite Hm; exact I).
  destruct (fallback_of_ticket_nonempty t Hd Hn) as [url [Hurl Hne]].
  destruct (fallback_cultural_image (ticketEvent t) (tokenId t)) as [img [Himg Hiff]].
  { exact I. }
  { rewrite (ticketEvent_description t Hd). exact I. }
  { exact Hn. }
  assert (img = url) by congruence. subst img.
  exists url. split; [now rewrite Hsrc |]. split; [exact Hne |].
  rewrite Hiff. unfold culturalEvent.
  rewrite (ticketEvent_description t Hd). unfold descriptionText. rewrite Hm. simpl.
  split; intros [H | H]; auto.
  destruct H as [H | H]; [now right |].
  apply cultural_iff in H. discriminate.
Qed.

Lemma placeholder_card_image_witness :
  exists img,
    imgSrc Demo.world Demo.concertTicket = Ok (Str img) /\ img <> ""
    /\ (In img CULTURAL_TICKET_IMAGES
        <-> tokenId Demo.concertTicket = 0
            \/ containsIgnoreCase (eventName Demo.concertTicket) "cultural").
Proof.
  refine (placeholder_card_image Demo.world Demo.concertTicket 1 _ _).
  - reflexivity.
  - simpl. lia.
Defined.
